(** * Company registry (routers/empresa.py) and the lending life cycle

    A shallow embedding of the company router of the API: the three
    format validators, the five CRUD handlers over the [empresa] table,
    and the properties the specification states about them.

    Python values are modelled as follows.
    - [str] is [string]: the UTF-8 bytes of the text.  Every function of
      the router looks only at ASCII characters (digits, letters and a
      few signs), and every byte of a non-ASCII character is above 127,
      so stripping, matching and measuring give the same answers on
      bytes as on code points.
    - [int] is [Z]; [len] is [String.length].
    - [str | None] is [option string]; a field of the update schema also
      records whether it was set at all ([option (option string)]).
    - a handler takes the session's rows and returns its answer together
      with the rows after it; an exception leaves the rows as they were
      (nothing was committed). *)

From Stdlib Require Import ZArith NArith List String Ascii Bool Lia.
Import ListNotations.

Open Scope string_scope.

(** ** The fragment of [re] the router uses *)

Module Re.

(** A pattern.  [Classe] is a bracket expression (or a single
    character), given by its membership test. *)
Inductive regex : Type :=
| Nada : regex
| Eps : regex
| Classe : (ascii -> bool) -> regex
| Seq : regex -> regex -> regex
| Alt : regex -> regex -> regex
| Estrela : regex -> regex.

(** [r+] and [r{2,}]. *)
Definition Mais (r : regex) : regex := Seq r (Estrela r).
Definition DoisOuMais (r : regex) : regex := Seq r (Seq r (Estrela r)).

Fixpoint anulavel (r : regex) : bool :=
  match r with
  | Nada => false
  | Eps => true
  | Classe _ => false
  | Seq a b => anulavel a && anulavel b
  | Alt a b => anulavel a || anulavel b
  | Estrela _ => true
  end.

(** Brzozowski derivative: what is left of [r] after reading [c]. *)
Fixpoint deriva (c : ascii) (r : regex) : regex :=
  match r with
  | Nada => Nada
  | Eps => Nada
  | Classe p => if p c then Eps else Nada
  | Seq a b =>
      if anulavel a
      then Alt (Seq (deriva c a) b) (deriva c b)
      else Seq (deriva c a) b
  | Alt a b => Alt (deriva c a) (deriva c b)
  | Estrela a => Seq (deriva c a) (Estrela a)
  end.

(** The whole of [s] is in the language of [r]. *)
Fixpoint casa (r : regex) (s : string) : bool :=
  match s with
  | EmptyString => anulavel r
  | String c s' => casa (deriva c r) s'
  end.

Definition entre (lo hi : N) (c : ascii) : bool :=
  (N.leb lo (N_of_ascii c) && N.leb (N_of_ascii c) hi)%bool.

(** [[0-9]], [[a-z]], [[A-Z]]. *)
Definition digito (c : ascii) : bool := entre 48 57 c.
Definition minuscula (c : ascii) : bool := entre 97 122 c.
Definition maiuscula (c : ascii) : bool := entre 65 90 c.

Definition um_de (cs : string) (c : ascii) : bool :=
  existsb (Ascii.eqb c) (list_ascii_of_string cs).

(** [$] of a pattern without [re.MULTILINE]: the end of the string, or
    just before a newline that ends it. *)
Definition fim : regex := Alt Eps (Classe (Ascii.eqb "010"%char)).

(** [re.match(p, s) is not None] for a pattern [^p$]. *)
Definition re_match (p : regex) (s : string) : bool := casa (Seq p fim) s.

(** [re.sub(r'[^0-9]', '', s)]: [s] without its non-digit characters. *)
Fixpoint sub_nao_digitos (s : string) : string :=
  match s with
  | EmptyString => EmptyString
  | String c s' =>
      if digito c then String c (sub_nao_digitos s') else sub_nao_digitos s'
  end.

End Re.

(** ** Validators (routers/empresa.py, lines 39-65) *)

Module Validacao.

(** [c * n] for a one-character string [c]. *)
Fixpoint repete (c : ascii) (n : nat) : string :=
  match n with
  | O => EmptyString
  | S k => String c (repete c k)
  end.

(** [validar_cnpj]: strip the non-digits, ask for 14 digits, refuse 14
    times the first one.  The empty case of the match is not reached:
    the string has 14 characters there. *)
Definition validar_cnpj (cnpj : string) : bool :=
  let cnpj := Re.sub_nao_digitos cnpj in
  if negb (Nat.eqb (String.length cnpj) 14) then false
  else
    match cnpj with
    | EmptyString => false
    | String c0 _ => if String.eqb cnpj (repete c0 14) then false else true
    end.

(** The pattern of [validar_email]:
    [^[a-zA-Z0-9._%+-]+@[a-zA-Z0-9.-]+\.[a-zA-Z]{2,}$]. *)
Definition classe_local (c : ascii) : bool :=
  Re.minuscula c || Re.maiuscula c || Re.digito c || Re.um_de "._%+-" c.
Definition classe_dominio (c : ascii) : bool :=
  Re.minuscula c || Re.maiuscula c || Re.digito c || Re.um_de ".-" c.
Definition classe_letra (c : ascii) : bool :=
  Re.minuscula c || Re.maiuscula c.

Definition pattern : Re.regex :=
  Re.Seq (Re.Mais (Re.Classe classe_local))
    (Re.Seq (Re.Classe (Ascii.eqb "@"%char))
       (Re.Seq (Re.Mais (Re.Classe classe_dominio))
          (Re.Seq (Re.Classe (Ascii.eqb "."%char))
             (Re.DoisOuMais (Re.Classe classe_letra))))).

Definition validar_email (email : string) : bool := Re.re_match pattern email.

(** [validar_telefone]: 10 or 11 digits once the rest is stripped. *)
Definition validar_telefone (telefone : string) : bool :=
  let telefone := Re.sub_nao_digitos telefone in
  existsb (Nat.eqb (String.length telefone)) [10; 11]%nat.

End Validacao.

(** ** Schemas and the table (routers/empresa.py, lines 13-36) *)

(** [EmpresaCreate]: [cnpj] and [razao_social] are required strings. *)
Module EmpresaCreate.
Record t : Type := Build {
  cnpj : string;
  razao_social : string;
  nome_fantasia : option string;
  numero_contato : option string;
  email_contato : option string;
  website : option string
}.
End EmpresaCreate.

(** [EmpresaUpdate]: every field is [str | None = None].  A field is
    [None] when the request did not set it, [Some None] when it set it
    to null and [Some (Some s)] when it set it to the string [s]:
    [model_dump(exclude_unset=True)] keeps exactly the fields that are
    [Some _], while reading the attribute ([valor]) gives [None] in the
    first two cases. *)
Module EmpresaUpdate.
Definition campo : Type := option (option string).
Record t : Type := Build {
  cnpj : campo;
  razao_social : campo;
  nome_fantasia : campo;
  numero_contato : campo;
  email_contato : campo;
  website : campo
}.
Definition valor (f : campo) : option string :=
  match f with
  | Some v => v
  | None => None
  end.
Definition nenhum : t := Build None None None None None None.
End EmpresaUpdate.

(** Modelled from the spec: the mapped class [Empresa] of
    app/models/empresa.py, which is not among the sources.  A row has an
    integer identity given by the table on insertion and the six
    attributes the router assigns.  [cnpj] is always assigned a string;
    the other attributes may be assigned null by an update.  The
    declaration's column constraints (lengths, nullability, uniqueness)
    are unknown: the table is taken to accept every row the router
    writes, so that the only checks are the router's own. *)
Module Empresa.
Record t : Type := Build {
  id : Z;
  cnpj : string;
  razao_social : option string;
  nome_fantasia : option string;
  numero_contato : option string;
  email_contato : option string;
  website : option string
}.
End Empresa.

(** The session's view of the table: its rows in insertion order, and
    the identity the next inserted row gets.  A query without ORDER BY
    is taken to return the rows in that order; the properties below that
    speak of the row a query finds hold whatever the order, since at
    most one row matches there. *)
Record Db : Type := { empresas : list Empresa.t; auto_increment : Z }.

Definition db_vazio : Db := {| empresas := []; auto_increment := 1 |}.

(** What a handler raises.  [TypeError] is not caught by the router. *)
Inductive excecao : Type :=
| HTTPException (status_code : Z) (detail : string)
| TypeError.

Inductive resultado (A : Type) : Type :=
| Retorna (a : A)
| Levanta (e : excecao).
Arguments Retorna {A} a.
Arguments Levanta {A} e.

(** The error kinds of the specification, read off the exception. *)
Inductive tipo_de_erro : Type := ValidationError | NotFound | Conflict | Generico.

Definition HTTP_400_BAD_REQUEST : Z := 400.
Definition HTTP_404_NOT_FOUND : Z := 404.

Definition nao_encontrada : excecao :=
  HTTPException HTTP_404_NOT_FOUND "Empresa não encontrada".
Definition cnpj_invalido : excecao :=
  HTTPException HTTP_400_BAD_REQUEST "CNPJ inválido".
Definition email_invalido : excecao :=
  HTTPException HTTP_400_BAD_REQUEST "Email inválido".
Definition telefone_invalido : excecao :=
  HTTPException HTTP_400_BAD_REQUEST "Número de telefone inválido".
Definition cnpj_ja_cadastrado : excecao :=
  HTTPException HTTP_400_BAD_REQUEST "Já existe uma empresa cadastrada com este CNPJ".
Definition outro_cnpj_ja_cadastrado : excecao :=
  HTTPException HTTP_400_BAD_REQUEST "Já existe outra empresa cadastrada com este CNPJ".

Definition excecao_eqb (a b : excecao) : bool :=
  match a, b with
  | HTTPException s d, HTTPException s' d' => Z.eqb s s' && String.eqb d d'
  | TypeError, TypeError => true
  | _, _ => false
  end.

Definition classifica (e : excecao) : tipo_de_erro :=
  if excecao_eqb e nao_encontrada then NotFound
  else if existsb (excecao_eqb e) [cnpj_invalido; email_invalido; telefone_invalido]
  then ValidationError
  else if existsb (excecao_eqb e) [cnpj_ja_cadastrado; outro_cnpj_ja_cadastrado]
  then Conflict
  else Generico.

(** What the listing answers: the rows of the page, or the error MySQL
    raises on the statement (it is not caught by the router). *)
Inductive pagina : Type :=
| Linhas (l : list Empresa.t)
| ProgrammingError.

(** The largest row count MySQL accepts after LIMIT or OFFSET. *)
Definition LIMIT_MAX : Z := 18446744073709551615.

(** ** The handlers (routers/empresa.py, lines 79-247) *)

Module Router.
Import Validacao.

(** Truth value of a [str | None]. *)
Definition verdadeiro (v : option string) : bool :=
  match v with
  | Some (String _ _) => true
  | _ => false
  end.

(** [v and not valida(v)]. *)
Definition reprovado (valida : string -> bool) (v : option string) : bool :=
  match v with
  | Some s => verdadeiro v && negb (valida s)
  | None => false
  end.

(** [db.query(Empresa).filter(p).first()]. *)
Definition first (p : Empresa.t -> bool) (db : Db) : option Empresa.t :=
  find p (empresas db).

Definition com_id (empresa_id : Z) (e : Empresa.t) : bool :=
  Z.eqb (Empresa.id e) empresa_id.
Definition com_cnpj (cnpj : string) (e : Empresa.t) : bool :=
  String.eqb (Empresa.cnpj e) cnpj.

Definition buscar_empresa (empresa_id : Z) (db : Db) : resultado Empresa.t :=
  match first (com_id empresa_id) db with
  | None => Levanta nao_encontrada
  | Some empresa => Retorna empresa
  end.

Definition buscar_empresa_por_cnpj (cnpj : string) (db : Db) : resultado Empresa.t :=
  let cnpj_limpo := Re.sub_nao_digitos cnpj in
  match first (com_cnpj cnpj_limpo) db with
  | None => Levanta nao_encontrada
  | Some empresa => Retorna empresa
  end.

Definition criar_empresa (empresa : EmpresaCreate.t) (db : Db)
  : resultado Empresa.t * Db :=
  if negb (validar_cnpj (EmpresaCreate.cnpj empresa)) then
    (Levanta cnpj_invalido, db)
  else if reprovado validar_email (EmpresaCreate.email_contato empresa) then
    (Levanta email_invalido, db)
  else if reprovado validar_telefone (EmpresaCreate.numero_contato empresa) then
    (Levanta telefone_invalido, db)
  else
    let cnpj_limpo := Re.sub_nao_digitos (EmpresaCreate.cnpj empresa) in
    match first (com_cnpj cnpj_limpo) db with
    | Some _ => (Levanta cnpj_ja_cadastrado, db)
    | None =>
        let db_empresa :=
          Empresa.Build (auto_increment db) cnpj_limpo
            (Some (EmpresaCreate.razao_social empresa))
            (EmpresaCreate.nome_fantasia empresa)
            (EmpresaCreate.numero_contato empresa)
            (EmpresaCreate.email_contato empresa)
            (EmpresaCreate.website empresa) in
        (Retorna db_empresa,
         {| empresas := empresas db ++ [db_empresa];
            auto_increment := auto_increment db + 1 |})
    end.

(** Lines 182-200: the checks on the tax ID of an update, run when the
    attribute is true. *)
Definition checa_cnpj (empresa_id : Z) (cnpj : option string) (db : Db)
  : option excecao :=
  match cnpj with
  | Some c =>
      if verdadeiro cnpj then
        if negb (validar_cnpj c) then Some cnpj_invalido
        else
          let cnpj_limpo := Re.sub_nao_digitos c in
          match first (fun e => com_cnpj cnpj_limpo e && negb (com_id empresa_id e)) db with
          | Some _ => Some outro_cnpj_ja_cadastrado
          | None => None
          end
      else None
  | None => None
  end.

(** [setattr] of one entry of [update_data]: a field that was not set
    has no entry. *)
Definition atribui (f : EmpresaUpdate.campo) (atual : option string) : option string :=
  match f with
  | Some v => v
  | None => atual
  end.

(** Lines 215-221 on one row.  [cnpj_limpo] is the entry of
    [update_data] for the tax ID after line 218, if there is one. *)
Definition aplica (cnpj_limpo : option string) (u : EmpresaUpdate.t) (e : Empresa.t)
  : Empresa.t :=
  Empresa.Build (Empresa.id e)
    (match cnpj_limpo with Some c => c | None => Empresa.cnpj e end)
    (atribui (EmpresaUpdate.razao_social u) (Empresa.razao_social e))
    (atribui (EmpresaUpdate.nome_fantasia u) (Empresa.nome_fantasia e))
    (atribui (EmpresaUpdate.numero_contato u) (Empresa.numero_contato e))
    (atribui (EmpresaUpdate.email_contato u) (Empresa.email_contato e))
    (atribui (EmpresaUpdate.website u) (Empresa.website e)).

(** The UPDATE of the commit: the row of that identity is rewritten. *)
Definition grava (empresa_id : Z) (f : Empresa.t -> Empresa.t) (db : Db) : Db :=
  {| empresas := map (fun e => if com_id empresa_id e then f e else e) (empresas db);
     auto_increment := auto_increment db |}.

(** Lines 217-218: the entry of [update_data] for the tax ID, when there
    is one, is replaced by its digits; [re.sub] raises [TypeError] on
    null. *)
Definition limpa_cnpj (f : EmpresaUpdate.campo) : resultado (option string) :=
  match f with
  | None => Retorna None
  | Some (Some c) => Retorna (Some (Re.sub_nao_digitos c))
  | Some None => Levanta TypeError
  end.

Definition atualizar_empresa (empresa_id : Z) (empresa_update : EmpresaUpdate.t) (db : Db)
  : resultado Empresa.t * Db :=
  match first (com_id empresa_id) db with
  | None => (Levanta nao_encontrada, db)
  | Some db_empresa =>
      match checa_cnpj empresa_id (EmpresaUpdate.valor (EmpresaUpdate.cnpj empresa_update)) db with
      | Some erro => (Levanta erro, db)
      | None =>
          if reprovado validar_email
               (EmpresaUpdate.valor (EmpresaUpdate.email_contato empresa_update)) then
            (Levanta email_invalido, db)
          else if reprovado validar_telefone
                    (EmpresaUpdate.valor (EmpresaUpdate.numero_contato empresa_update)) then
            (Levanta telefone_invalido, db)
          else
            match limpa_cnpj (EmpresaUpdate.cnpj empresa_update) with
            | Levanta erro => (Levanta erro, db)
            | Retorna cnpj_limpo =>
                let f := aplica cnpj_limpo empresa_update in
                (Retorna (f db_empresa), grava empresa_id f db)
            end
      end
  end.

(** The DELETE of the commit removes the row of that identity. *)
Definition deletar_empresa (empresa_id : Z) (db : Db) : resultado unit * Db :=
  match first (com_id empresa_id) db with
  | None => (Levanta nao_encontrada, db)
  | Some _ =>
      (Retorna tt,
       {| empresas := filter (fun e => negb (com_id empresa_id e)) (empresas db);
          auto_increment := auto_increment db |})
  end.

(** Lines 68-77: [db.query(Empresa).offset(skip).limit(limit).all()].
    The two numbers go into the statement as they are; MySQL (the
    engine of database.py) accepts there only row counts from 0 to
    [LIMIT_MAX] and refuses the statement otherwise.  The statement has
    no ORDER BY: the rows come in the order of the table, which for
    the engine is that of the primary key and here that of
    insertion. *)
Definition listar_empresas (skip limit : Z) (db : Db) : pagina :=
  if (Z.leb 0 skip && Z.leb skip LIMIT_MAX && Z.leb 0 limit && Z.leb limit LIMIT_MAX)%bool
  then Linhas (firstn (Z.to_nat limit) (skipn (Z.to_nat skip) (empresas db)))
  else ProgrammingError.

End Router.

(** ** The lending life cycle *)

(** Modelled from the spec: the borrow model and router
    (app/models/borrow.py and app/routers/borrow.py are imported by the
    sources but are not among them).  A borrow links a borrower, a
    lender and a book copy; it is created [Open] and [Returned] is
    terminal.  Creating a borrow fails with [Conflict] when the copy
    already has an open borrow; returning fails with [NotFound] when the
    identity is unknown and with [Conflict] when the borrow is not
    open. *)
Module Borrow.

Inductive estado : Type := Open | Returned.

Record t : Type := Build {
  id : Z;
  borrower_id : Z;
  lender_id : Z;
  copy_id : Z;
  state : estado
}.

Inductive erro : Type := NotFound | Conflict.

Record Store : Type := { borrows : list t; auto_increment : Z }.

Definition vazio : Store := {| borrows := []; auto_increment := 1 |}.

Definition aberto (b : t) : bool :=
  match state b with
  | Open => true
  | Returned => false
  end.

Definition aberto_da_copia (copy : Z) (b : t) : bool :=
  Z.eqb (copy_id b) copy && aberto b.

(** The open borrows of a copy. *)
Definition abertos (copy : Z) (st : Store) : list t :=
  filter (aberto_da_copia copy) (borrows st).

Definition create_borrow (borrower lender copy : Z) (st : Store)
  : (t + erro) * Store :=
  if existsb (aberto_da_copia copy) (borrows st) then (inr Conflict, st)
  else
    let b := Build (auto_increment st) borrower lender copy Open in
    (inl b,
     {| borrows := borrows st ++ [b]; auto_increment := auto_increment st + 1 |}).

Definition devolve (borrow_id : Z) (b : t) : t :=
  if Z.eqb (id b) borrow_id
  then Build (id b) (borrower_id b) (lender_id b) (copy_id b) Returned
  else b.

Definition return_borrow (borrow_id : Z) (st : Store) : (t + erro) * Store :=
  match find (fun b => Z.eqb (id b) borrow_id) (borrows st) with
  | None => (inr NotFound, st)
  | Some b =>
      match state b with
      | Returned => (inr Conflict, st)
      | Open =>
          (inl (devolve borrow_id b),
           {| borrows := map (devolve borrow_id) (borrows st);
              auto_increment := auto_increment st |})
      end
  end.

(** A copy is the subject of at most one open borrow. *)
Definition no_maximo_um_aberto (st : Store) : Prop :=
  forall copy, (List.length (abertos copy st) <= 1)%nat.

(** The states the two operations reach from the empty store. *)
Inductive alcancavel : Store -> Prop :=
| alc_vazio : alcancavel vazio
| alc_create : forall borrower lender copy st,
    alcancavel st -> alcancavel (snd (create_borrow borrower lender copy st))
| alc_return : forall borrow_id st,
    alcancavel st -> alcancavel (snd (return_borrow borrow_id st)).

End Borrow.

(** ** Words of the specification about the company handlers *)

Module Spec.
Import Validacao.

(** A string of separators and digits [s] whose digits, in order, are
    [d]. *)
Inductive com_separadores : string -> string -> Prop :=
| cs_fim : com_separadores EmptyString EmptyString
| cs_digito : forall c d s,
    Re.digito c = true -> com_separadores d s ->
    com_separadores (String c d) (String c s)
| cs_separador : forall c d s,
    Re.digito c = false -> com_separadores d s ->
    com_separadores d (String c s).

(** All the characters of [s] are the same one. *)
Definition todos_iguais (s : string) : Prop :=
  exists c, s = repete c (String.length s).

(** A provided (non-empty) value fails its format validation. *)
Definition fornecido_invalido (valida : string -> bool) (v : option string) : Prop :=
  exists s, v = Some s /\ s <> EmptyString /\ valida s = false.

(** The create payload fails format validation. *)
Definition falha_formato (p : EmpresaCreate.t) : Prop :=
  validar_cnpj (EmpresaCreate.cnpj p) = false
  \/ fornecido_invalido validar_email (EmpresaCreate.email_contato p)
  \/ fornecido_invalido validar_telefone (EmpresaCreate.numero_contato p).

(** Some company holds the tax ID [n]. *)
Definition cnpj_em_uso (n : string) (db : Db) : Prop :=
  exists e, In e (empresas db) /\ Empresa.cnpj e = n.

(** A company other than [empresa_id] holds the tax ID [n]. *)
Definition cnpj_de_outra (empresa_id : Z) (n : string) (db : Db) : Prop :=
  exists e, In e (empresas db) /\ Empresa.cnpj e = n /\ Empresa.id e <> empresa_id.

(** The company [empresa_id] exists and [e] is its record. *)
Definition existe (empresa_id : Z) (e : Empresa.t) (db : Db) : Prop :=
  Router.first (Router.com_id empresa_id) db = Some e.

(** No two stored tax IDs are equal. *)
Definition cnpj_sem_repeticao (db : Db) : Prop :=
  NoDup (map Empresa.cnpj (empresas db)).

(** Two records with the same non-empty tax ID are records of one
    company. *)
Definition cnpj_unico (db : Db) : Prop :=
  forall a b, In a (empresas db) -> In b (empresas db) ->
    Empresa.cnpj a = Empresa.cnpj b -> Empresa.cnpj a <> EmptyString ->
    Empresa.id a = Empresa.id b.

(** Every stored tax ID is made of digits only, and is blank or passes
    [validar_cnpj]. *)
Definition cnpj_so_digitos (db : Db) : Prop :=
  forall e, In e (empresas db) ->
    Re.sub_nao_digitos (Empresa.cnpj e) = Empresa.cnpj e
    /\ (Empresa.cnpj e = EmptyString \/ validar_cnpj (Empresa.cnpj e) = true).

(** The identities are those of a primary key given by the table. *)
Definition ids_distintos (db : Db) : Prop :=
  NoDup (map Empresa.id (empresas db))
  /\ (forall e, In e (empresas db) -> (Empresa.id e < auto_increment db)%Z).

(** Creating [primeiro] and then [segundo]: the first create returns a
    record [r], the second raises a conflict and changes nothing, and
    [r] is then the one record that holds its tax ID. *)
Definition um_sucesso_e_um_conflito (primeiro segundo : EmpresaCreate.t) (db : Db) : Prop :=
  exists r db1 e,
    Router.criar_empresa primeiro db = (Retorna r, db1)
    /\ Router.criar_empresa segundo db1 = (Levanta e, db1)
    /\ classifica e = Conflict
    /\ filter (Router.com_cnpj (Empresa.cnpj r)) (empresas db1) = [r].

(** The states the handlers reach from the empty table. *)
Inductive alcancavel : Db -> Prop :=
| alc_vazio : alcancavel db_vazio
| alc_criar : forall p db,
    alcancavel db -> alcancavel (snd (Router.criar_empresa p db))
| alc_atualizar : forall i u db,
    alcancavel db -> alcancavel (snd (Router.atualizar_empresa i u db))
| alc_deletar : forall i db,
    alcancavel db -> alcancavel (snd (Router.deletar_empresa i db)).

End Spec.

(** ** Sample requests and tables *)

Module Exemplos.
Import Router.

Definition acme : EmpresaCreate.t :=
  EmpresaCreate.Build "12.345.678/0001-95" "Acme Ltda" None
    (Some "(11) 99999-9999") (Some "contato@acme.com.br") (Some "w").

(** The same tax ID as [acme], written without separators. *)
Definition acme_filial : EmpresaCreate.t :=
  EmpresaCreate.Build "12345678000195" "Acme Filial" None None None None.

Definition beta : EmpresaCreate.t :=
  EmpresaCreate.Build "98.765.432/0001-10" "Beta SA" None None (Some "") None.

Definition email_ruim : EmpresaCreate.t :=
  EmpresaCreate.Build "98.765.432/0001-10" "Beta SA" None None (Some "beta.com.br") None.

(** An update that sets only the tax ID, and one that sets only the
    legal name. *)
Definition so_cnpj (c : string) : EmpresaUpdate.t :=
  EmpresaUpdate.Build (Some (Some c)) None None None None None.
Definition so_razao_social (x : string) : EmpresaUpdate.t :=
  EmpresaUpdate.Build None (Some (Some x)) None None None None.

(** An update that sets the tax ID and a malformed email. *)
Definition cnpj_e_email_ruim (c : string) : EmpresaUpdate.t :=
  EmpresaUpdate.Build (Some (Some c)) None None None (Some (Some "sem-arroba")) None.

(** The records of [acme] and [beta] when they are created in that
    order in the empty table. *)
Definition linha_acme : Empresa.t :=
  Empresa.Build 1 "12345678000195" (Some "Acme Ltda") None
    (Some "(11) 99999-9999") (Some "contato@acme.com.br") (Some "w").
Definition linha_beta : Empresa.t :=
  Empresa.Build 2 "98765432000110" (Some "Beta SA") None None (Some "") None.

(** [acme] alone; [acme] and [beta]; the latter after [acme] was given
    the empty tax ID. *)
Definition db1 : Db := snd (criar_empresa acme db_vazio).
Definition db2 : Db := snd (criar_empresa beta db1).
Definition db3 : Db := snd (atualizar_empresa 1 (so_cnpj "") db2).

(** [db3] after [beta] too was given the empty tax ID. *)
Definition db4 : Db := snd (atualizar_empresa 2 (so_cnpj "") db3).

(** Copy 5 lent by staff 20 to customer 10. *)
Definition emprestado : Borrow.Store := snd (Borrow.create_borrow 10 20 5 Borrow.vazio).

End Exemplos.

(** ** What a pattern matches *)

Module Linguagem.
Import Validacao.

(** The strings of a pattern, as the documentation of [re] gives them
    for this fragment. *)
Inductive pertence : Re.regex -> string -> Prop :=
| p_eps : pertence Re.Eps EmptyString
| p_classe : forall p c, p c = true -> pertence (Re.Classe p) (String c EmptyString)
| p_seq : forall a b s t,
    pertence a s -> pertence b t -> pertence (Re.Seq a b) (s ++ t)
| p_alt_e : forall a b s, pertence a s -> pertence (Re.Alt a b) s
| p_alt_d : forall a b s, pertence b s -> pertence (Re.Alt a b) s
| p_estrela_0 : forall a, pertence (Re.Estrela a) EmptyString
| p_estrela_n : forall a s t,
    pertence a s -> pertence (Re.Estrela a) t -> pertence (Re.Estrela a) (s ++ t).

(** Every character of [s] is in the class [p]. *)
Fixpoint todos (p : ascii -> bool) (s : string) : bool :=
  match s with
  | EmptyString => true
  | String c s' => p c && todos p s'
  end.

(** How many times [c] occurs in [s]. *)
Fixpoint conta (c : ascii) (s : string) : nat :=
  match s with
  | EmptyString => O
  | String x s' => (if Ascii.eqb x c then 1 else 0) + conta c s'
  end.

Definition nova_linha : string := String "010"%char EmptyString.

(** [local@dominio.tld]. *)
Definition endereco (l d t : string) : string := l ++ "@" ++ d ++ "." ++ t.

(** The three parts are made as the pattern asks: a non-empty local
    part and a non-empty domain of the allowed characters, and at least
    two letters after the last dot. *)
Definition partes (l d t : string) : Prop :=
  l <> EmptyString /\ todos classe_local l = true
  /\ d <> EmptyString /\ todos classe_dominio d = true
  /\ (2 <= String.length t)%nat /\ todos classe_letra t = true.

End Linguagem.

(** ** Further words about the company handlers *)

Module Uso.
Import Validacao.

(** The create payload [p] with the tax ID written as [c]. *)
Definition com_cnpj_escrito (c : string) (p : EmpresaCreate.t) : EmpresaCreate.t :=
  EmpresaCreate.Build c (EmpresaCreate.razao_social p) (EmpresaCreate.nome_fantasia p)
    (EmpresaCreate.numero_contato p) (EmpresaCreate.email_contato p)
    (EmpresaCreate.website p).

(** The update payload [u] with the tax ID set to the string [c]. *)
Definition com_cnpj_atualizado (c : string) (u : EmpresaUpdate.t) : EmpresaUpdate.t :=
  EmpresaUpdate.Build (Some (Some c)) (EmpresaUpdate.razao_social u)
    (EmpresaUpdate.nome_fantasia u) (EmpresaUpdate.numero_contato u)
    (EmpresaUpdate.email_contato u) (EmpresaUpdate.website u).

(** A stored contact value is absent, empty or passes its check. *)
Definition contato_ok (valida : string -> bool) (v : option string) : Prop :=
  forall s, v = Some s -> s = EmptyString \/ valida s = true.

(** Every stored phone and email is absent, empty or valid. *)
Definition contatos_validos (db : Db) : Prop :=
  forall e, In e (empresas db) ->
    contato_ok validar_email (Empresa.email_contato e)
    /\ contato_ok validar_telefone (Empresa.numero_contato e).

(** Each number is below all those after it. *)
Fixpoint crescente (l : list Z) : Prop :=
  match l with
  | [] => True
  | a :: l' => (forall b, In b l' -> (a < b)%Z) /\ crescente l'
  end.

(** The states the handlers reach from the empty table when no update
    sets the tax ID to the empty string. *)
Inductive alcancavel_sem_branco : Db -> Prop :=
| asb_vazio : alcancavel_sem_branco db_vazio
| asb_criar : forall p db,
    alcancavel_sem_branco db ->
    alcancavel_sem_branco (snd (Router.criar_empresa p db))
| asb_atualizar : forall i u db,
    alcancavel_sem_branco db ->
    EmpresaUpdate.cnpj u <> Some (Some EmptyString) ->
    alcancavel_sem_branco (snd (Router.atualizar_empresa i u db))
| asb_deletar : forall i db,
    alcancavel_sem_branco db ->
    alcancavel_sem_branco (snd (Router.deletar_empresa i db)).

End Uso.

(** ** Sample tables, written out *)

Module Tabelas.
Import Exemplos.

(** The table after [acme] and [beta] are created in that order, and
    the table after [acme] alone is created. *)
Definition tabela1 : Db := {| empresas := [linha_acme]; auto_increment := 2 |}.
Definition tabela2 : Db := {| empresas := [linha_acme; linha_beta]; auto_increment := 3 |}.

End Tabelas.

(** ** Characters and digits, as the specification speaks of them *)

Module Caracteres.

(** The character [c] is one of those written in [cs]. *)
Definition em (cs : string) (c : ascii) : Prop := In c (list_ascii_of_string cs).

Definition algarismos : string := "0123456789".
Definition letras : string := "abcdefghijklmnopqrstuvwxyzABCDEFGHIJKLMNOPQRSTUVWXYZ".

(** [c] is one of the ten decimal digits. *)
Definition algarismo (c : ascii) : Prop := em algarismos c.

Definition eh_algarismo (c : ascii) : bool :=
  existsb (Ascii.eqb c) (list_ascii_of_string algarismos).

(** The digits of [s], in order: what is left of [s] when every
    character that is not a decimal digit is removed. *)
Fixpoint so_algarismos (s : string) : string :=
  match s with
  | EmptyString => EmptyString
  | String c s' =>
      if eh_algarismo c then String c (so_algarismos s') else so_algarismos s'
  end.

(** [s] is the digit string [d] with characters that are not digits
    interspersed. *)
Inductive intercalado : string -> string -> Prop :=
| int_fim : intercalado EmptyString EmptyString
| int_algarismo : forall c d s,
    algarismo c -> intercalado d s -> intercalado (String c d) (String c s)
| int_separador : forall c d s,
    ~ algarismo c -> intercalado d s -> intercalado d (String c s).

(** All the characters of [s] are one and the same. *)
Definition um_so_caractere (s : string) : Prop :=
  forall x y, In x (list_ascii_of_string s) -> In y (list_ascii_of_string s) -> x = y.

(** [n] times the character [c]. *)
Definition vezes (n : nat) (c : ascii) : string := string_of_list_ascii (repeat c n).

End Caracteres.

(** * Properties *)

(** ** Stripping and the validators *)

Section Digitos.
Import Validacao Spec.

Lemma sub_nao_digitos_idem (s : string) :
  Re.sub_nao_digitos (Re.sub_nao_digitos s) = Re.sub_nao_digitos s.
Proof.
  induction s as [|c s IH]; simpl; [reflexivity|].
  destruct (Re.digito c) eqn:Hc; simpl; [rewrite Hc, IH|]; auto.
Qed.

Lemma com_separadores_sub (d s : string) :
  com_separadores d s <-> Re.sub_nao_digitos s = d.
Proof.
  split.
  - induction 1; simpl; [reflexivity| |]; rewrite H; congruence.
  - revert d; induction s as [|c s IH]; simpl; intros d <-.
    + constructor.
    + destruct (Re.digito c) eqn:Hc; constructor; auto.
Qed.

Lemma length_repete (c : ascii) (n : nat) : String.length (repete c n) = n.
Proof. induction n; simpl; congruence. Qed.

Lemma todos_iguais_primeiro (c : ascii) (r : string) (n : nat) :
  String.length (String c r) = n ->
  (todos_iguais (String c r) <-> String c r = repete c n).
Proof.
  intros Hn; unfold todos_iguais; rewrite Hn; split.
  - intros [c' H]. destruct n; [discriminate|].
    simpl in H. injection H as Hc Hr. subst c'. simpl. rewrite <- Hr. reflexivity.
  - eauto.
Qed.

Lemma validar_cnpj_spec (s : string) :
  validar_cnpj s = true <->
  String.length (Re.sub_nao_digitos s) = 14%nat
  /\ ~ todos_iguais (Re.sub_nao_digitos s).
Proof.
  unfold validar_cnpj; cbv zeta.
  destruct (Nat.eqb_spec (String.length (Re.sub_nao_digitos s)) 14) as [H|H];
    cbn [negb]; cbv iota.
  - destruct (Re.sub_nao_digitos s) as [|c r] eqn:E; [discriminate|].
    pose proof (todos_iguais_primeiro c r 14 H) as T.
    destruct (String.eqb_spec (String c r) (repete c 14)) as [Q|Q]; cbv iota.
    + split; [discriminate|]. intros [_ N]. elim N. apply T, Q.
    + split; [|reflexivity]. intros _. split; [exact H|]. rewrite T. exact Q.
  - split; [discriminate|]. intros [L _]. contradiction.
Qed.

Lemma validar_cnpj_sub (s : string) :
  validar_cnpj (Re.sub_nao_digitos s) = validar_cnpj s.
Proof. unfold validar_cnpj. rewrite sub_nao_digitos_idem. reflexivity. Qed.

Lemma validar_cnpj_mesmos_digitos (s1 s2 : string) :
  Re.sub_nao_digitos s1 = Re.sub_nao_digitos s2 -> validar_cnpj s1 = validar_cnpj s2.
Proof. unfold validar_cnpj. intros ->. reflexivity. Qed.

Lemma validar_cnpj_nao_vazio (s : string) :
  validar_cnpj s = true -> Re.sub_nao_digitos s <> EmptyString.
Proof.
  rewrite validar_cnpj_spec. intros [L _] E. rewrite E in L. discriminate.
Qed.

End Digitos.

(** ** The validators against the digits of the specification *)

Section ValidadoresEDigitos.
Import Validacao Spec Caracteres.

Lemma em_existsb (cs : string) (c : ascii) :
  em cs c <-> existsb (Ascii.eqb c) (list_ascii_of_string cs) = true.
Proof.
  unfold em. rewrite existsb_exists. split.
  - intros H. exists c. split; [exact H|apply Ascii.eqb_refl].
  - intros [x [H E]]. apply Ascii.eqb_eq in E. subst x. exact H.
Qed.

Lemma algarismo_eh_algarismo (c : ascii) : algarismo c <-> eh_algarismo c = true.
Proof. apply em_existsb. Qed.

(** The class [[0-9]] of the code holds the ten digits and nothing
    else. *)
Lemma digito_eh_algarismo (c : ascii) : Re.digito c = eh_algarismo c.
Proof.
  destruct c as [b0 b1 b2 b3 b4 b5 b6 b7].
  destruct b0, b1, b2, b3, b4, b5, b6, b7; reflexivity.
Qed.

Lemma sub_so_algarismos (s : string) : Re.sub_nao_digitos s = so_algarismos s.
Proof.
  induction s as [|c s IH]; cbn [Re.sub_nao_digitos so_algarismos]; [reflexivity|].
  rewrite digito_eh_algarismo, IH. reflexivity.
Qed.

Lemma intercalado_so_algarismos (d s : string) :
  intercalado d s <-> so_algarismos s = d.
Proof.
  split.
  - induction 1 as [|c d s A _ IH|c d s A _ IH]; cbn [so_algarismos]; [reflexivity| |].
    + apply algarismo_eh_algarismo in A. rewrite A, IH. reflexivity.
    + destruct (eh_algarismo c) eqn:E; [|exact IH].
      elim A. apply algarismo_eh_algarismo. exact E.
  - revert d. induction s as [|c s IH]; cbn [so_algarismos]; intros d <-; [constructor|].
    destruct (eh_algarismo c) eqn:E.
    + apply int_algarismo; [apply algarismo_eh_algarismo; exact E|auto].
    + apply int_separador; [|auto]. intros A.
      apply algarismo_eh_algarismo in A. congruence.
Qed.

Lemma repete_vezes (c : ascii) (n : nat) : repete c n = vezes n c.
Proof. unfold vezes. induction n as [|n IH]; cbn; [reflexivity|]. rewrite IH. reflexivity. Qed.

Lemma so_algarismos_vezes (c : ascii) (n : nat) :
  algarismo c -> so_algarismos (vezes n c) = vezes n c.
Proof.
  intros A. apply algarismo_eh_algarismo in A. unfold vezes.
  induction n as [|n IH]; cbn [repeat string_of_list_ascii so_algarismos]; [reflexivity|].
  rewrite A. f_equal. exact IH.
Qed.

Lemma todos_iguais_um_so (s : string) : todos_iguais s <-> um_so_caractere s.
Proof.
  unfold todos_iguais, um_so_caractere. split.
  - intros [c E]. revert E. generalize (String.length s) as n. intros n E.
    assert (Q : forall x, In x (list_ascii_of_string s) -> x = c).
    { rewrite E. clear E. induction n as [|n IH]; cbn; [intros x []|].
      intros x [<-|H]; auto. }
    intros x y Hx Hy. rewrite (Q x Hx), (Q y Hy). reflexivity.
  - intros U. destruct s as [|c r]; [exists zero; reflexivity|]. exists c.
    assert (Q : forall x, In x (list_ascii_of_string r) -> x = c).
    { intros x Hx. apply U; [right; exact Hx|left; reflexivity]. }
    clear U. cbn. f_equal. induction r as [|y r IH]; cbn; [reflexivity|].
    rewrite (Q y (or_introl eq_refl)). f_equal. apply IH.
    intros x Hx. apply Q. right. exact Hx.
Qed.

Lemma um_so_vezes (n : nat) (c : ascii) : um_so_caractere (vezes n c).
Proof.
  apply todos_iguais_um_so. exists c. rewrite <- repete_vezes, length_repete.
  reflexivity.
Qed.

Lemma validar_cnpj_algarismos (s : string) :
  validar_cnpj s = true <->
  String.length (so_algarismos s) = 14%nat /\ ~ um_so_caractere (so_algarismos s).
Proof.
  rewrite validar_cnpj_spec, sub_so_algarismos, todos_iguais_um_so. reflexivity.
Qed.

Lemma validar_telefone_algarismos (s : string) :
  validar_telefone s = true <->
  String.length (so_algarismos s) = 10%nat \/ String.length (so_algarismos s) = 11%nat.
Proof.
  unfold validar_telefone; cbv zeta. rewrite sub_so_algarismos. simpl existsb.
  rewrite !orb_true_iff, !Nat.eqb_eq. intuition (try discriminate; auto).
Qed.

End ValidadoresEDigitos.

(** C5.  Removing the non-digit characters of a string leaves its
    decimal digits in order, and [validar_cnpj s] is true exactly when
    14 digits are left and they are not all the same one.  So it is
    false on 14 times the same digit and true on 14 digits not all
    equal, whatever characters that are not digits are interspersed. *)
Theorem validar_cnpj_correto :
  (forall s, Re.sub_nao_digitos s = Caracteres.so_algarismos s)
  /\ (forall d s, Caracteres.intercalado d s <-> Caracteres.so_algarismos s = d)
  /\ (forall s,
         Validacao.validar_cnpj s = true <->
         String.length (Caracteres.so_algarismos s) = 14%nat
         /\ ~ Caracteres.um_so_caractere (Caracteres.so_algarismos s))
  /\ (forall c s,
         Caracteres.algarismo c ->
         Caracteres.intercalado (Caracteres.vezes 14 c) s ->
         Validacao.validar_cnpj s = false)
  /\ (forall d s,
         String.length d = 14%nat -> ~ Caracteres.um_so_caractere d ->
         Caracteres.intercalado d s ->
         Validacao.validar_cnpj s = true)
  /\ (Validacao.validar_cnpj "11111111111111" = false
      /\ Validacao.validar_cnpj "00.000.000/0000-00" = false
      /\ Validacao.validar_cnpj "12345678000195" = true
      /\ Validacao.validar_cnpj "12.345.678/0001-95" = true
      /\ Validacao.validar_cnpj "1234567800019" = false
      /\ Validacao.validar_cnpj "123456780001950" = false
      /\ Validacao.validar_cnpj "" = false).
Proof.
  split; [exact sub_so_algarismos|].
  split; [exact intercalado_so_algarismos|].
  split; [exact validar_cnpj_algarismos|].
  split; [|split; [|repeat split]].
  - intros c s A H. apply intercalado_so_algarismos in H.
    destruct (Validacao.validar_cnpj s) eqn:V; [|reflexivity].
    apply validar_cnpj_algarismos in V. destruct V as [_ N]. elim N.
    rewrite H. apply um_so_vezes.
  - intros d s L N H. apply intercalado_so_algarismos in H.
    apply validar_cnpj_algarismos. rewrite H. auto.
Qed.

(** A formatted tax ID of 14 digits not all equal is accepted, and 14
    times the digit 1, formatted, is refused. *)
Lemma validar_cnpj_correto_witness :
  Validacao.validar_cnpj "12.345.678/0001-95" = true
  /\ Validacao.validar_cnpj "11.111.111/1111-11" = false.
Proof.
  destruct validar_cnpj_correto as [_ [I [_ [F [T _]]]]]. split.
  - apply (T "12345678000195" "12.345.678/0001-95").
    + reflexivity.
    + intros U. specialize (U "1"%char "2"%char).
      cbn in U. assert (Q : "1"%char = "2"%char) by (apply U; auto). discriminate Q.
    + apply I. reflexivity.
  - apply (F "1"%char "11.111.111/1111-11").
    + cbn. auto.
    + apply I. reflexivity.
Defined.

(** C9.  Removing the non-digit characters of a string leaves its
    decimal digits in order, and [validar_telefone s] is true exactly
    when 10 or 11 digits are left; 9 and 12 digits are refused, whatever
    characters that are not digits are interspersed. *)
Theorem validar_telefone_correto :
  (forall s, Re.sub_nao_digitos s = Caracteres.so_algarismos s)
  /\ (forall s,
         Validacao.validar_telefone s = true <->
         String.length (Caracteres.so_algarismos s) = 10%nat
         \/ String.length (Caracteres.so_algarismos s) = 11%nat)
  /\ (forall d s,
         Caracteres.intercalado d s ->
         (Validacao.validar_telefone s = true <->
          String.length d = 10%nat \/ String.length d = 11%nat))
  /\ (forall d s,
         Caracteres.intercalado d s ->
         String.length d = 9%nat \/ String.length d = 12%nat ->
         Validacao.validar_telefone s = false)
  /\ (Validacao.validar_telefone "1133334444" = true
      /\ Validacao.validar_telefone "(11) 3333-4444" = true
      /\ Validacao.validar_telefone "(11) 99999-9999" = true
      /\ Validacao.validar_telefone "999999999" = false
      /\ Validacao.validar_telefone "+55 11 3333-4444" = false
      /\ Validacao.validar_telefone "abcdefghij" = false
      /\ Validacao.validar_telefone "" = false).
Proof.
  split; [exact sub_so_algarismos|].
  split; [exact validar_telefone_algarismos|].
  split; [|split; [|repeat split]].
  - intros d s H. apply intercalado_so_algarismos in H.
    rewrite validar_telefone_algarismos, H. reflexivity.
  - intros d s H L. apply intercalado_so_algarismos in H.
    destruct (Validacao.validar_telefone s) eqn:V; [|reflexivity].
    apply validar_telefone_algarismos in V. rewrite H in V.
    destruct L as [L|L]; rewrite L in V; destruct V; discriminate.
Qed.

(** A mobile number written with its usual signs is accepted, and a
    landline number written with the country code, 12 digits, is
    refused. *)
Lemma validar_telefone_correto_witness :
  Validacao.validar_telefone "(11) 99999-9999" = true
  /\ Validacao.validar_telefone "+55 11 3333-4444" = false.
Proof.
  destruct validar_telefone_correto as [_ [_ [I [F _]]]]. split.
  - apply (I "11999999999" "(11) 99999-9999").
    + apply intercalado_so_algarismos. reflexivity.
    + right. reflexivity.
  - apply (F "551133334444" "+55 11 3333-4444").
    + apply intercalado_so_algarismos. reflexivity.
    + right. reflexivity.
Defined.

(** ** Reading the table *)

Section Consultas.
Import Validacao Spec Router.

Lemma first_None (p : Empresa.t -> bool) (db : Db) :
  first p db = None <-> (forall e, In e (empresas db) -> p e = false).
Proof.
  unfold first. split.
  - intros H e. apply (find_none _ _ H).
  - induction (empresas db) as [|x l IH]; simpl; intros H; [reflexivity|].
    rewrite (H x (or_introl eq_refl)). apply IH. intros e He. apply H. right. exact He.
Qed.

Lemma first_Some (p : Empresa.t -> bool) (db : Db) (e : Empresa.t) :
  first p db = Some e -> In e (empresas db) /\ p e = true.
Proof. apply find_some. Qed.

Lemma first_existe (p : Empresa.t -> bool) (db : Db) :
  (exists e, In e (empresas db) /\ p e = true) -> exists e, first p db = Some e.
Proof.
  intros [e [He Hp]]. destruct (first p db) as [x|] eqn:F; [eauto|].
  rewrite first_None in F. rewrite (F e He) in Hp. discriminate.
Qed.

Lemma com_id_true (i : Z) (e : Empresa.t) : com_id i e = true <-> Empresa.id e = i.
Proof. unfold com_id. apply Z.eqb_eq. Qed.

Lemma com_id_false (i : Z) (e : Empresa.t) : com_id i e = false <-> Empresa.id e <> i.
Proof. unfold com_id. apply Z.eqb_neq. Qed.

Lemma com_cnpj_true (n : string) (e : Empresa.t) : com_cnpj n e = true <-> Empresa.cnpj e = n.
Proof. unfold com_cnpj. apply String.eqb_eq. Qed.

Lemma com_cnpj_false (n : string) (e : Empresa.t) : com_cnpj n e = false <-> Empresa.cnpj e <> n.
Proof. unfold com_cnpj. apply String.eqb_neq. Qed.

Lemma cnpj_em_uso_first (n : string) (db : Db) :
  cnpj_em_uso n db <-> exists e, first (com_cnpj n) db = Some e.
Proof.
  split.
  - intros [e [He Hn]]. apply first_existe. exists e. rewrite com_cnpj_true. auto.
  - intros [e F]. apply first_Some in F. exists e. rewrite <- com_cnpj_true. exact F.
Qed.

Lemma first_app_novo (p : Empresa.t -> bool) (db : Db) (r : Empresa.t) (k : Z) :
  first p db = None -> p r = true ->
  first p {| empresas := empresas db ++ [r]; auto_increment := k |} = Some r.
Proof.
  rewrite first_None. unfold first; simpl.
  induction (empresas db) as [|x l IH]; simpl; intros H Hr.
  - rewrite Hr. reflexivity.
  - rewrite (H x (or_introl eq_refl)). apply IH; auto.
Qed.

Lemma find_sem_o_deletado (i j : Z) (l : list Empresa.t) :
  j <> i ->
  find (com_id j) (filter (fun e => negb (com_id i e)) l) = find (com_id j) l.
Proof.
  intros Hj. induction l as [|y l IH]; [reflexivity|]. simpl.
  destruct (com_id i y) eqn:E1; simpl.
  - destruct (com_id j y) eqn:E2; [|exact IH].
    apply com_id_true in E1, E2. congruence.
  - destruct (com_id j y); [reflexivity|exact IH].
Qed.

Lemma verdadeiro_spec (v : option string) :
  verdadeiro v = true <-> exists s, v = Some s /\ s <> EmptyString.
Proof.
  destruct v as [[|c s]|]; simpl; split; try discriminate; eauto.
  - intros [s [E N]]. injection E as <-. contradiction.
  - intros _. eexists; split; [reflexivity|discriminate].
  - intros [s [E _]]. discriminate.
Qed.

Lemma reprovado_spec (valida : string -> bool) (v : option string) :
  reprovado valida v = true <-> fornecido_invalido valida v.
Proof.
  unfold reprovado, fornecido_invalido.
  destruct v as [s|]; [|split; [discriminate|intros [s [E _]]; discriminate]].
  rewrite andb_true_iff, negb_true_iff, verdadeiro_spec. split.
  - intros [[s' [E N]] V]. injection E as <-. eauto.
  - intros [s' [E [N V]]]. injection E as <-. eauto.
Qed.

Lemma reprovado_false (valida : string -> bool) (v : option string) :
  reprovado valida v = false <-> ~ fornecido_invalido valida v.
Proof.
  rewrite <- reprovado_spec. destruct (reprovado valida v); split; auto; try discriminate.
  intros H. elim H. reflexivity.
Qed.

(** The three guards of lines 120-136, as one test. *)
Lemma falha_formato_guardas (p : EmpresaCreate.t) :
  falha_formato p <->
  negb (validar_cnpj (EmpresaCreate.cnpj p))
  || reprovado validar_email (EmpresaCreate.email_contato p)
  || reprovado validar_telefone (EmpresaCreate.numero_contato p) = true.
Proof.
  unfold falha_formato.
  rewrite !orb_true_iff, negb_true_iff, !reprovado_spec. tauto.
Qed.

Lemma formato_ok_guardas (p : EmpresaCreate.t) :
  ~ falha_formato p ->
  validar_cnpj (EmpresaCreate.cnpj p) = true
  /\ reprovado validar_email (EmpresaCreate.email_contato p) = false
  /\ reprovado validar_telefone (EmpresaCreate.numero_contato p) = false.
Proof.
  rewrite falha_formato_guardas.
  destruct (validar_cnpj _), (reprovado validar_email _), (reprovado validar_telefone _);
    simpl; intros H; auto; elim H; reflexivity.
Qed.

Lemma criar_empresa_novo (p : EmpresaCreate.t) (db : Db) :
  ~ falha_formato p ->
  ~ cnpj_em_uso (Re.sub_nao_digitos (EmpresaCreate.cnpj p)) db ->
  let r :=
    Empresa.Build (auto_increment db) (Re.sub_nao_digitos (EmpresaCreate.cnpj p))
      (Some (EmpresaCreate.razao_social p)) (EmpresaCreate.nome_fantasia p)
      (EmpresaCreate.numero_contato p) (EmpresaCreate.email_contato p)
      (EmpresaCreate.website p) in
  criar_empresa p db
  = (Retorna r,
     {| empresas := empresas db ++ [r]; auto_increment := auto_increment db + 1 |}).
Proof.
  intros NF NU. destruct (formato_ok_guardas p NF) as [V [E T]].
  unfold criar_empresa. rewrite V, E, T. cbn [negb]; cbv iota zeta.
  destruct (first (com_cnpj _) db) as [e0|] eqn:F.
  - elim NU. apply cnpj_em_uso_first. eauto.
  - reflexivity.
Qed.

Lemma criar_empresa_duplicado (p : EmpresaCreate.t) (db : Db) :
  ~ falha_formato p ->
  cnpj_em_uso (Re.sub_nao_digitos (EmpresaCreate.cnpj p)) db ->
  criar_empresa p db = (Levanta cnpj_ja_cadastrado, db).
Proof.
  intros NF U. destruct (formato_ok_guardas p NF) as [V [E T]].
  unfold criar_empresa. rewrite V, E, T. cbn [negb]; cbv iota zeta.
  apply cnpj_em_uso_first in U. destruct U as [e0 F]. rewrite F. reflexivity.
Qed.

(** A create that raises leaves the table as it was; one that returns
    appended the returned record, whose tax ID is valid, stripped and
    was held by no company. *)
Lemma criar_empresa_casos (p : EmpresaCreate.t) (db : Db) :
  (exists e, criar_empresa p db = (Levanta e, db))
  \/ (exists r,
        criar_empresa p db
        = (Retorna r,
           {| empresas := empresas db ++ [r]; auto_increment := auto_increment db + 1 |})
        /\ Empresa.cnpj r = Re.sub_nao_digitos (EmpresaCreate.cnpj p)
        /\ validar_cnpj (EmpresaCreate.cnpj p) = true
        /\ ~ cnpj_em_uso (Empresa.cnpj r) db).
Proof.
  unfold criar_empresa.
  destruct (validar_cnpj _) eqn:V; cbn [negb]; cbv iota; [|eauto].
  destruct (reprovado validar_email _); [eauto|].
  destruct (reprovado validar_telefone _); [eauto|]. cbv zeta.
  destruct (first (com_cnpj _) db) as [e0|] eqn:F; [eauto|].
  right. eexists. split; [reflexivity|]. cbn. repeat split.
  intros U. apply cnpj_em_uso_first in U. destruct U as [e U]. congruence.
Qed.

End Consultas.

(** ** Create and look up *)

Section Cadastro.
Import Validacao Spec Router.

(** C1.  A create whose payload fails format validation (the tax ID, or
    a provided non-empty email or phone) raises a validation error and
    leaves the table as it was; otherwise, when the stripped tax ID is
    already held by a company, it raises a conflict and leaves the table
    as it was; otherwise it appends exactly one record, whose tax ID is
    the stripped input and whose other fields are the payload's, and
    returns it. *)
Theorem criar_empresa_correto (p : EmpresaCreate.t) (db : Db) :
  let n := Re.sub_nao_digitos (EmpresaCreate.cnpj p) in
  let r :=
    Empresa.Build (auto_increment db) n
      (Some (EmpresaCreate.razao_social p)) (EmpresaCreate.nome_fantasia p)
      (EmpresaCreate.numero_contato p) (EmpresaCreate.email_contato p)
      (EmpresaCreate.website p) in
  (falha_formato p ->
     exists e, criar_empresa p db = (Levanta e, db)
               /\ classifica e = ValidationError)
  /\ (~ falha_formato p -> cnpj_em_uso n db ->
      exists e, criar_empresa p db = (Levanta e, db)
                /\ classifica e = Conflict)
  /\ (~ falha_formato p -> ~ cnpj_em_uso n db ->
      criar_empresa p db
      = (Retorna r,
         {| empresas := empresas db ++ [r];
            auto_increment := auto_increment db + 1 |})).
Proof.
  intros n r. split; [|split].
  - intros F. apply falha_formato_guardas in F. unfold criar_empresa.
    destruct (validar_cnpj (EmpresaCreate.cnpj p)); cbn [negb orb] in *; cbv iota.
    + destruct (reprovado validar_email (EmpresaCreate.email_contato p)).
      * exists email_invalido. split; reflexivity.
      * cbn [orb] in F. rewrite F. exists telefone_invalido. split; reflexivity.
    + exists cnpj_invalido. split; reflexivity.
  - intros NF U. exists cnpj_ja_cadastrado.
    split; [apply criar_empresa_duplicado; assumption|reflexivity].
  - intros NF NU. apply criar_empresa_novo; assumption.
Qed.


End Cadastro.

Section CadastroExemplos.
Import Validacao Spec Router Exemplos.

Ltac formato_ok :=
  let F := fresh in
  intros F; apply falha_formato_guardas in F; vm_compute in F; discriminate F.
Ltac cnpj_livre :=
  let U := fresh in
  let e := fresh in
  intros U; apply cnpj_em_uso_first in U; destruct U as [e U];
  vm_compute in U; discriminate U.

(** With [acme] registered: a payload with a malformed email, a payload
    with the tax ID of [acme] written differently, and a new company. *)
Lemma criar_empresa_correto_witness :
  (exists e, criar_empresa email_ruim db1 = (Levanta e, db1)
             /\ classifica e = ValidationError)
  /\ (exists e, criar_empresa acme_filial db1 = (Levanta e, db1)
                /\ classifica e = Conflict)
  /\ criar_empresa beta db1
     = (Retorna linha_beta,
        {| empresas := empresas db1 ++ [linha_beta]; auto_increment := 3 |}).
Proof.
  split; [|split].
  - apply (proj1 (criar_empresa_correto email_ruim db1)).
    right; left. exists "beta.com.br".
    split; [reflexivity|split; [discriminate|reflexivity]].
  - apply (proj1 (proj2 (criar_empresa_correto acme_filial db1))).
    + formato_ok.
    + eexists; split; [left; reflexivity|reflexivity].
  - apply (proj2 (proj2 (criar_empresa_correto beta db1))).
    + formato_ok.
    + cnpj_livre.
Defined.


End CadastroExemplos.

(** ** Partial update *)

Section Atualizacao.
Import Validacao Spec Router.

Lemma aplica_id (nc : option string) (u : EmpresaUpdate.t) (e : Empresa.t) :
  Empresa.id (aplica nc u e) = Empresa.id e.
Proof. reflexivity. Qed.

Lemma first_grava (i : Z) (f : Empresa.t -> Empresa.t) (db : Db) (e : Empresa.t) :
  (forall x, Empresa.id (f x) = Empresa.id x) ->
  first (com_id i) db = Some e ->
  first (com_id i) (grava i f db) = Some (f e).
Proof.
  intros Hf. unfold first, grava; cbn [empresas].
  induction (empresas db) as [|y l IH]; simpl; [discriminate|].
  destruct (com_id i y) eqn:E.
  - intros H; injection H as <-.
    replace (com_id i (f y)) with true; [reflexivity|].
    symmetry. apply com_id_true. rewrite Hf. apply com_id_true. exact E.
  - rewrite E. exact IH.
Qed.

Lemma first_grava_outro (i j : Z) (f : Empresa.t -> Empresa.t) (db : Db) :
  (forall x, Empresa.id (f x) = Empresa.id x) ->
  j <> i ->
  first (com_id j) (grava i f db) = first (com_id j) db.
Proof.
  intros Hf Hj. unfold first, grava; cbn [empresas].
  induction (empresas db) as [|y l IH]; simpl; [reflexivity|].
  destruct (com_id i y) eqn:E; [|rewrite IH; reflexivity].
  assert (F : com_id j (f y) = false).
  { apply com_id_false. rewrite Hf. apply com_id_true in E. congruence. }
  assert (G : com_id j y = false).
  { apply com_id_false. apply com_id_true in E. congruence. }
  rewrite F, G. exact IH.
Qed.

(** What a returning update did. *)
Lemma atualizar_Retorna (i : Z) (u : EmpresaUpdate.t) (db db' : Db) (d : Empresa.t) :
  atualizar_empresa i u db = (Retorna d, db') <->
  exists antes nc,
    existe i antes db
    /\ checa_cnpj i (EmpresaUpdate.valor (EmpresaUpdate.cnpj u)) db = None
    /\ reprovado validar_email (EmpresaUpdate.valor (EmpresaUpdate.email_contato u)) = false
    /\ reprovado validar_telefone (EmpresaUpdate.valor (EmpresaUpdate.numero_contato u)) = false
    /\ limpa_cnpj (EmpresaUpdate.cnpj u) = Retorna nc
    /\ d = aplica nc u antes
    /\ db' = grava i (aplica nc u) db.
Proof.
  unfold atualizar_empresa, existe. split.
  - destruct (first (com_id i) db) as [antes|]; [|discriminate].
    destruct (checa_cnpj _ _ db); [discriminate|].
    destruct (reprovado validar_email _); [discriminate|].
    destruct (reprovado validar_telefone _); [discriminate|].
    destruct (limpa_cnpj _) as [nc|]; [|discriminate].
    cbv zeta. intros H; injection H as <- <-.
    exists antes, nc. repeat split; reflexivity.
  - intros [antes [nc [-> [-> [-> [-> [-> [-> ->]]]]]]]]. reflexivity.
Qed.

(** C3.  A returning update leaves every field that its payload does
    not set as it was (a field set to null is assigned null, so absence
    is not read as null), the lookup by identity returns the updated
    record, and the other companies are as before.  A payload that sets
    only the legal name returns for every existing company: it changes
    the legal name and nothing else, so a website ["w"] stays ["w"]. *)
Theorem atualizar_preserva_ausentes :
  (forall i u db db' antes depois,
      existe i antes db ->
      atualizar_empresa i u db = (Retorna depois, db') ->
      (Empresa.id depois = Empresa.id antes
       /\ (EmpresaUpdate.cnpj u = None -> Empresa.cnpj depois = Empresa.cnpj antes)
       /\ (EmpresaUpdate.razao_social u = None ->
           Empresa.razao_social depois = Empresa.razao_social antes)
       /\ (EmpresaUpdate.nome_fantasia u = None ->
           Empresa.nome_fantasia depois = Empresa.nome_fantasia antes)
       /\ (EmpresaUpdate.numero_contato u = None ->
           Empresa.numero_contato depois = Empresa.numero_contato antes)
       /\ (EmpresaUpdate.email_contato u = None ->
           Empresa.email_contato depois = Empresa.email_contato antes)
       /\ (EmpresaUpdate.website u = None ->
           Empresa.website depois = Empresa.website antes))
      /\ (EmpresaUpdate.website u = Some None -> Empresa.website depois = None)
      /\ buscar_empresa i db' = Retorna depois
      /\ (forall j, j <> i -> buscar_empresa j db' = buscar_empresa j db))
  /\ (forall i x db antes,
         existe i antes db ->
         exists db',
           atualizar_empresa i (Exemplos.so_razao_social x) db
           = (Retorna
                (Empresa.Build (Empresa.id antes) (Empresa.cnpj antes) (Some x)
                   (Empresa.nome_fantasia antes) (Empresa.numero_contato antes)
                   (Empresa.email_contato antes) (Empresa.website antes)),
              db')).
Proof.
  split.
  - intros i u db db' antes depois Ex H.
    apply atualizar_Retorna in H.
    destruct H as [antes' [nc [Ex' [_ [_ [_ [L [-> ->]]]]]]]].
    unfold existe in Ex, Ex'. rewrite Ex in Ex'. injection Ex' as <-.
    split; [|split; [|split]].
    + split; [reflexivity|].
      split.
      { intros A. rewrite A in L. injection L as <-. reflexivity. }
      repeat split; intros A; cbn; rewrite A; reflexivity.
    + intros A. cbn. rewrite A. reflexivity.
    + unfold buscar_empresa.
      rewrite (first_grava i _ db antes (aplica_id nc u) Ex). reflexivity.
    + intros j Hj. unfold buscar_empresa.
      rewrite (first_grava_outro i j _ db (aplica_id nc u) Hj). reflexivity.
  - intros i x db antes Ex. eexists.
    apply atualizar_Retorna. exists antes, None.
    repeat split; try reflexivity. exact Ex.
Qed.

(** C10.  For an existing company and a payload whose tax ID is set to
    the empty string, the checks of the tax ID (format and duplicate)
    are not run: no error about the tax ID is raised, whatever the other
    companies hold; when the email and phone the payload provides pass,
    the update returns and stores the empty string as the tax ID, which
    [validar_cnpj] refuses; when one of them fails, the update raises a
    validation error and stores nothing. *)
Theorem atualizar_cnpj_vazio (i : Z) (u : EmpresaUpdate.t) (db : Db) (antes : Empresa.t) :
  existe i antes db ->
  EmpresaUpdate.cnpj u = Some (Some EmptyString) ->
  checa_cnpj i (EmpresaUpdate.valor (EmpresaUpdate.cnpj u)) db = None
  /\ (forall e, fst (atualizar_empresa i u db) = Levanta e ->
                e = email_invalido \/ e = telefone_invalido)
  /\ (~ fornecido_invalido validar_email
          (EmpresaUpdate.valor (EmpresaUpdate.email_contato u)) ->
      ~ fornecido_invalido validar_telefone
          (EmpresaUpdate.valor (EmpresaUpdate.numero_contato u)) ->
      exists depois db',
        atualizar_empresa i u db = (Retorna depois, db')
        /\ Empresa.cnpj depois = EmptyString
        /\ validar_cnpj (Empresa.cnpj depois) = false
        /\ buscar_empresa i db' = Retorna depois)
  /\ (fornecido_invalido validar_email
         (EmpresaUpdate.valor (EmpresaUpdate.email_contato u))
      \/ fornecido_invalido validar_telefone
           (EmpresaUpdate.valor (EmpresaUpdate.numero_contato u)) ->
      exists e, atualizar_empresa i u db = (Levanta e, db)
                /\ classifica e = ValidationError).
Proof.
  intros Ex C.
  assert (K : checa_cnpj i (EmpresaUpdate.valor (EmpresaUpdate.cnpj u)) db = None).
  { rewrite C. reflexivity. }
  split; [exact K|]. split; [|split].
  - intros e. unfold atualizar_empresa. unfold existe in Ex. rewrite Ex, K, C.
    destruct (reprovado validar_email _); [intros H; injection H as <-; auto|].
    destruct (reprovado validar_telefone _); [intros H; injection H as <-; auto|].
    discriminate.
  - intros E T. apply reprovado_false in E, T.
    exists (aplica (Some EmptyString) u antes), (grava i (aplica (Some EmptyString) u) db).
    split; [|split; [reflexivity|split; [reflexivity|]]].
    + apply atualizar_Retorna. exists antes, (Some EmptyString).
      rewrite C. repeat split; auto.
    + unfold buscar_empresa.
      rewrite (first_grava i _ db antes (aplica_id _ u) Ex). reflexivity.
  - intros F. unfold atualizar_empresa. unfold existe in Ex. rewrite Ex, K.
    destruct (reprovado validar_email _) eqn:E.
    + exists email_invalido. split; reflexivity.
    + destruct F as [F|F]; apply reprovado_spec in F; [congruence|].
      rewrite F. exists telefone_invalido. split; reflexivity.
Qed.

End Atualizacao.

(** ** Uniqueness of the tax ID *)

Section Unicidade.
Import Validacao Spec Router.

Lemma verdadeiro_validar_cnpj (c : string) :
  validar_cnpj c = true -> verdadeiro (Some c) = true.
Proof.
  intros V. apply validar_cnpj_nao_vazio in V.
  destruct c; [elim V; reflexivity|reflexivity].
Qed.

(** The checks of lines 182-200 on a tax ID that passes the format
    check: the answer is the duplicate test. *)
Lemma checa_cnpj_valido (i : Z) (c : string) (db : Db) :
  validar_cnpj c = true ->
  checa_cnpj i (Some c) db
  = match first (fun e => com_cnpj (Re.sub_nao_digitos c) e && negb (com_id i e)) db with
    | Some _ => Some outro_cnpj_ja_cadastrado
    | None => None
    end.
Proof.
  intros V. unfold checa_cnpj. rewrite (verdadeiro_validar_cnpj c V), V. reflexivity.
Qed.

(** When the checks let a tax ID through, it is blank or no other
    company holds its digits. *)
Lemma checa_cnpj_None (i : Z) (c : string) (db : Db) :
  checa_cnpj i (Some c) db = None ->
  Re.sub_nao_digitos c = EmptyString
  \/ (forall e, In e (empresas db) ->
                Empresa.cnpj e = Re.sub_nao_digitos c -> Empresa.id e = i).
Proof.
  unfold checa_cnpj. destruct (verdadeiro (Some c)) eqn:T.
  - destruct (validar_cnpj c); cbn [negb]; cbv iota; [|discriminate]. cbv zeta.
    destruct (first _ db) as [x|] eqn:F; [discriminate|]. intros _. right.
    intros e He Hc. rewrite first_None in F. specialize (F e He).
    apply com_cnpj_true in Hc. rewrite Hc in F. cbn in F.
    apply negb_false_iff, com_id_true in F. exact F.
  - intros _. left. destruct c; [reflexivity|discriminate].
Qed.

Lemma atualizar_Levanta (i : Z) (u : EmpresaUpdate.t) (db db' : Db) (e : excecao) :
  atualizar_empresa i u db = (Levanta e, db') -> db' = db.
Proof.
  unfold atualizar_empresa.
  destruct (first (com_id i) db); [|intros H; injection H; auto].
  destruct (checa_cnpj _ _ db); [intros H; injection H; auto|].
  destruct (reprovado validar_email _); [intros H; injection H; auto|].
  destruct (reprovado validar_telefone _); [intros H; injection H; auto|].
  destruct (limpa_cnpj _); [discriminate|intros H; injection H; auto].
Qed.

Lemma criar_preserva_unico (p : EmpresaCreate.t) (db : Db) :
  cnpj_unico db -> cnpj_unico (snd (criar_empresa p db)).
Proof.
  intros U. destruct (criar_empresa_casos p db) as [[e ->]|[r [-> [_ [_ N]]]]]; [exact U|].
  cbn [snd]. intros a b Ha Hb Hc Hn. cbn [empresas] in Ha, Hb.
  apply in_app_iff in Ha, Hb.
  destruct Ha as [Ha|[<-|[]]], Hb as [Hb|[<-|[]]].
  - apply U; assumption.
  - elim N. exists a. auto.
  - elim N. exists b. auto.
  - reflexivity.
Qed.

Lemma atualizar_preserva_unico (i : Z) (u : EmpresaUpdate.t) (db : Db) :
  cnpj_unico db -> cnpj_unico (snd (atualizar_empresa i u db)).
Proof.
  intros U. destruct (atualizar_empresa i u db) as [[d|e] db'] eqn:H; cbn [snd].
  2:{ apply atualizar_Levanta in H. subst db'. exact U. }
  apply atualizar_Retorna in H.
  destruct H as [antes [nc [_ [K [_ [_ [L [_ ->]]]]]]]].
  assert (G : forall a b,
             In a (empresas db) -> In b (empresas db) ->
             com_id i a = true -> com_id i b = false ->
             Empresa.cnpj (aplica nc u a) = Empresa.cnpj b ->
             Empresa.cnpj b <> EmptyString -> False).
  { intros a b Ha Hb Ea Eb Hc Hn.
    destruct (EmpresaUpdate.cnpj u) as [[c|]|] eqn:C; cbn in L; try discriminate;
      injection L as <-; cbn in Hc.
    - cbn in K. destruct (checa_cnpj_None i c db K) as [Z0|Z0].
      + congruence.
      + apply com_id_false in Eb. apply Eb, Z0; auto.
    - apply com_id_true in Ea. apply com_id_false in Eb.
      apply Eb. rewrite <- Ea. symmetry. apply U; auto. congruence. }
  intros a' b' Ha Hb Hc Hn. unfold grava in Ha, Hb; cbn [empresas] in Ha, Hb.
  apply in_map_iff in Ha, Hb.
  destruct Ha as [a [<- Ha]], Hb as [b [<- Hb]].
  destruct (com_id i a) eqn:Ea, (com_id i b) eqn:Eb.
  - rewrite !aplica_id. apply com_id_true in Ea, Eb. congruence.
  - exfalso. apply (G a b); auto. congruence.
  - exfalso. apply (G b a); auto.
  - apply U; assumption.
Qed.

Lemma deletar_preserva_unico (i : Z) (db : Db) :
  cnpj_unico db -> cnpj_unico (snd (deletar_empresa i db)).
Proof.
  intros U. unfold deletar_empresa.
  destruct (first (com_id i) db); [|exact U]. cbn [snd].
  intros a b Ha Hb. cbn [empresas] in Ha, Hb.
  apply filter_In in Ha, Hb. apply U; tauto.
Qed.

(** In every state the handlers reach, two records with the same
    non-empty tax ID belong to one company. *)
Lemma alcancavel_cnpj_unico (db : Db) : alcancavel db -> cnpj_unico db.
Proof.
  induction 1.
  - intros a b [].
  - apply criar_preserva_unico; assumption.
  - apply atualizar_preserva_unico; assumption.
  - apply deletar_preserva_unico; assumption.
Qed.

Lemma checa_cnpj_None_valido (i : Z) (c : string) (db : Db) :
  checa_cnpj i (Some c) db = None -> c = EmptyString \/ validar_cnpj c = true.
Proof.
  unfold checa_cnpj. destruct c as [|a c]; [auto|]. cbn [verdadeiro].
  destruct (validar_cnpj (String a c)); [auto|discriminate].
Qed.

Lemma criar_preserva_digitos (p : EmpresaCreate.t) (db : Db) :
  cnpj_so_digitos db -> cnpj_so_digitos (snd (criar_empresa p db)).
Proof.
  intros U. destruct (criar_empresa_casos p db) as [[e ->]|[r [-> [C [V _]]]]]; [exact U|].
  cbn [snd]. intros a Ha. cbn [empresas] in Ha. apply in_app_iff in Ha.
  destruct Ha as [Ha|[<-|[]]]; [apply U; exact Ha|].
  rewrite C. split; [apply sub_nao_digitos_idem|].
  right. rewrite validar_cnpj_sub. exact V.
Qed.

Lemma atualizar_preserva_digitos (i : Z) (u : EmpresaUpdate.t) (db : Db) :
  cnpj_so_digitos db -> cnpj_so_digitos (snd (atualizar_empresa i u db)).
Proof.
  intros U. destruct (atualizar_empresa i u db) as [[d|e] db'] eqn:H; cbn [snd].
  2:{ apply atualizar_Levanta in H. subst db'. exact U. }
  apply atualizar_Retorna in H.
  destruct H as [antes [nc [_ [K [_ [_ [L [_ ->]]]]]]]].
  intros a' Ha. unfold grava in Ha; cbn [empresas] in Ha.
  apply in_map_iff in Ha. destruct Ha as [a [<- Ha]].
  destruct (com_id i a); [|apply U; exact Ha].
  destruct (EmpresaUpdate.cnpj u) as [[c|]|] eqn:C; cbn in L; try discriminate;
    injection L as <-; cbn [aplica Empresa.cnpj]; [|apply U; exact Ha].
  split; [apply sub_nao_digitos_idem|].
  cbn in K. destruct (checa_cnpj_None_valido i c db K) as [->|V]; [left; reflexivity|].
  right. rewrite validar_cnpj_sub. exact V.
Qed.

Lemma deletar_preserva_digitos (i : Z) (db : Db) :
  cnpj_so_digitos db -> cnpj_so_digitos (snd (deletar_empresa i db)).
Proof.
  intros U. unfold deletar_empresa.
  destruct (first (com_id i) db); [|exact U]. cbn [snd].
  intros a Ha. cbn [empresas] in Ha. apply filter_In in Ha. apply U; tauto.
Qed.

(** In every state the handlers reach, the stored tax IDs are digit
    strings, each blank or valid. *)
Lemma alcancavel_cnpj_so_digitos (db : Db) : alcancavel db -> cnpj_so_digitos db.
Proof.
  induction 1.
  - intros a [].
  - apply criar_preserva_digitos; assumption.
  - apply atualizar_preserva_digitos; assumption.
  - apply deletar_preserva_digitos; assumption.
Qed.

Lemma NoDup_map_filter (l : list Empresa.t) (p : Empresa.t -> bool) :
  NoDup (map Empresa.id l) -> NoDup (map Empresa.id (filter p l)).
Proof.
  induction l as [|y l IH]; cbn; [auto|]. intros N.
  inversion N as [|? ? Y1 Y2]; subst.
  destruct (p y); cbn; [|auto]. constructor; [|auto].
  intros I. apply Y1. apply in_map_iff in I. destruct I as [x [Hx Ix]].
  apply filter_In in Ix. apply in_map_iff. exists x. tauto.
Qed.

(** In every state the handlers reach, no two rows have the same
    identity, and the next identity is above them all. *)
Lemma alcancavel_ids_distintos (db : Db) : alcancavel db -> ids_distintos db.
Proof.
  induction 1 as [|p db R [N B]|i u db R [N B]|i db R [N B]].
  - split; [constructor|intros e []].
  - destruct (criar_empresa_casos p db) as [[e ->]|[r [Q _]]]; [split; assumption|].
    assert (Hr : Empresa.id r = auto_increment db).
    { unfold criar_empresa in Q.
      destruct (negb _); [discriminate|]. destruct (reprovado _ _); [discriminate|].
      destruct (reprovado _ _); [discriminate|]. cbv zeta in Q.
      destruct (first _ db); [discriminate|]. injection Q as <-. reflexivity. }
    rewrite Q. unfold ids_distintos. cbn [snd empresas auto_increment]. split.
    + rewrite map_app. cbn [map]. rewrite Hr.
      assert (M : ~ In (auto_increment db) (map Empresa.id (empresas db))).
      { intros I. apply in_map_iff in I. destruct I as [x [Hx Ix]].
        specialize (B x Ix). lia. }
      revert N M. generalize (map Empresa.id (empresas db)) (auto_increment db).
      intros l n. induction l as [|y l IH]; intros N M; cbn.
      * constructor; [intros []|constructor].
      * inversion N as [|? ? Y1 Y2]; subst. constructor.
        -- rewrite in_app_iff. intros [I|[I|[]]]; [contradiction|].
           apply M. left. symmetry. exact I.
        -- apply IH; [exact Y2|]. intros I. apply M. right. exact I.
    + intros e He. apply in_app_iff in He. destruct He as [He|[<-|[]]].
      * specialize (B e He). lia.
      * lia.
  - destruct (atualizar_empresa i u db) as [[d|e] db'] eqn:H; cbn [snd].
    2:{ apply atualizar_Levanta in H. subst db'. split; assumption. }
    apply atualizar_Retorna in H.
    destruct H as [antes [nc [_ [_ [_ [_ [_ [_ ->]]]]]]]].
    unfold ids_distintos, grava; cbn [empresas auto_increment].
    assert (E : map Empresa.id
                  (map (fun e => if com_id i e then aplica nc u e else e) (empresas db))
                = map Empresa.id (empresas db)).
    { rewrite map_map. apply map_ext. intros a. destruct (com_id i a); reflexivity. }
    split; [rewrite E; exact N|].
    intros e He. apply in_map_iff in He. destruct He as [a [<- Ha]].
    specialize (B a Ha). destruct (com_id i a); exact B.
  - unfold deletar_empresa. destruct (first (com_id i) db); [|split; assumption].
    unfold ids_distintos. cbn [snd empresas auto_increment].
    split; [apply NoDup_map_filter; exact N|].
    intros e He. apply filter_In in He. apply B; tauto.
Qed.

Lemma criar_preserva_sem_repeticao (p : EmpresaCreate.t) (db : Db) :
  cnpj_sem_repeticao db -> cnpj_sem_repeticao (snd (criar_empresa p db)).
Proof.
  intros U. destruct (criar_empresa_casos p db) as [[e ->]|[r [-> [_ [_ N]]]]]; [exact U|].
  unfold cnpj_sem_repeticao in *. cbn [snd empresas]. rewrite map_app. cbn [map].
  assert (M : ~ In (Empresa.cnpj r) (map Empresa.cnpj (empresas db))).
  { intros I. apply in_map_iff in I. destruct I as [x [Hx Ix]]. apply N. exists x. auto. }
  revert U M. generalize (map Empresa.cnpj (empresas db)) (Empresa.cnpj r).
  intros l n. induction l as [|y l IH]; intros U M; cbn.
  - constructor; [intros []|constructor].
  - inversion U as [|? ? Y1 Y2]; subst. constructor.
    + rewrite in_app_iff. intros [I|[I|[]]]; [contradiction|].
      apply M. left. symmetry. exact I.
    + apply IH; [exact Y2|]. intros I. apply M. right. exact I.
Qed.

Lemma filter_novo (n : string) (r : Empresa.t) (l : list Empresa.t) :
  (forall e, In e l -> Empresa.cnpj e <> n) -> Empresa.cnpj r = n ->
  filter (com_cnpj n) (l ++ [r]) = [r].
Proof.
  intros H Hr. induction l as [|y l IH]; cbn.
  - apply com_cnpj_true in Hr. rewrite Hr. reflexivity.
  - replace (com_cnpj n y) with false.
    + apply IH. intros e He. apply H. right. exact He.
    + symmetry. apply com_cnpj_false. apply H. left. reflexivity.
Qed.

Lemma falha_formato_mesmo_cnpj (p1 p2 : EmpresaCreate.t) :
  Re.sub_nao_digitos (EmpresaCreate.cnpj p1) = Re.sub_nao_digitos (EmpresaCreate.cnpj p2) ->
  ~ falha_formato p1 -> validar_cnpj (EmpresaCreate.cnpj p2) = true.
Proof.
  intros E NF. rewrite <- (validar_cnpj_mesmos_digitos _ _ E).
  apply (formato_ok_guardas p1 NF).
Qed.

Lemma sucesso_e_conflito (p1 p2 : EmpresaCreate.t) (db : Db) :
  Re.sub_nao_digitos (EmpresaCreate.cnpj p1) = Re.sub_nao_digitos (EmpresaCreate.cnpj p2) ->
  ~ falha_formato p1 -> ~ falha_formato p2 ->
  ~ cnpj_em_uso (Re.sub_nao_digitos (EmpresaCreate.cnpj p1)) db ->
  um_sucesso_e_um_conflito p1 p2 db.
Proof.
  intros E F1 F2 N. unfold um_sucesso_e_um_conflito.
  rewrite (criar_empresa_novo p1 db F1 N). cbv zeta.
  eexists _, _, cnpj_ja_cadastrado. split; [reflexivity|]. split; [|split].
  - apply criar_empresa_duplicado; [exact F2|]. rewrite <- E.
    eexists. split; [cbn [empresas]; apply in_app_iff; right; left; reflexivity|].
    reflexivity.
  - reflexivity.
  - cbn [empresas Empresa.cnpj]. apply filter_novo; [|reflexivity].
    intros e He Hc. apply N. exists e. auto.
Qed.

(** C4.  An update of an identity no company has raises not-found.  For
    an existing company and a payload whose tax ID passes the format
    check: when another company holds its digits the update raises a
    conflict and changes nothing; when its digits are the company's own
    current tax ID, in a state the handlers reach, and the email and
    phone the payload provides pass, the update returns and the tax ID
    is as before. *)
Theorem atualizar_cnpj_correto :
  (forall i u db,
      (forall e, In e (empresas db) -> Empresa.id e <> i) ->
      atualizar_empresa i u db = (Levanta nao_encontrada, db)
      /\ classifica nao_encontrada = NotFound)
  /\ (forall i u db antes c,
         existe i antes db ->
         EmpresaUpdate.cnpj u = Some (Some c) ->
         validar_cnpj c = true ->
         cnpj_de_outra i (Re.sub_nao_digitos c) db ->
         exists e, atualizar_empresa i u db = (Levanta e, db)
                   /\ classifica e = Conflict)
  /\ (forall i u db antes c,
         alcancavel db ->
         existe i antes db ->
         EmpresaUpdate.cnpj u = Some (Some c) ->
         validar_cnpj c = true ->
         Re.sub_nao_digitos c = Empresa.cnpj antes ->
         ~ fornecido_invalido validar_email
             (EmpresaUpdate.valor (EmpresaUpdate.email_contato u)) ->
         ~ fornecido_invalido validar_telefone
             (EmpresaUpdate.valor (EmpresaUpdate.numero_contato u)) ->
         exists depois db',
           atualizar_empresa i u db = (Retorna depois, db')
           /\ Empresa.cnpj depois = Empresa.cnpj antes
           /\ buscar_empresa i db' = Retorna depois).
Proof.
  split; [|split].
  - intros i u db H. split; [|reflexivity]. unfold atualizar_empresa.
    destruct (first (com_id i) db) as [x|] eqn:F; [|reflexivity].
    apply first_Some in F. destruct F as [Hx Hi].
    apply com_id_true in Hi. elim (H x Hx Hi).
  - intros i u db antes c Ex C V [o [Ho [Hc Hi]]].
    exists outro_cnpj_ja_cadastrado. split; [|reflexivity].
    unfold atualizar_empresa. unfold existe in Ex. rewrite Ex, C. cbn [EmpresaUpdate.valor].
    rewrite (checa_cnpj_valido i c db V).
    destruct (first_existe (fun e => com_cnpj (Re.sub_nao_digitos c) e && negb (com_id i e)) db)
      as [x F].
    { exists o. split; [exact Ho|].
      apply andb_true_iff. split; [apply com_cnpj_true; exact Hc|].
      apply negb_true_iff, com_id_false; exact Hi. }
    rewrite F. reflexivity.
  - intros i u db antes c R Ex C V Own E T.
    apply reprovado_false in E, T. apply alcancavel_cnpj_unico in R.
    assert (K : checa_cnpj i (Some c) db = None).
    { rewrite (checa_cnpj_valido i c db V).
      destruct (first _ db) as [x|] eqn:F; [|reflexivity]. exfalso.
      apply first_Some in F. destruct F as [Hx F].
      apply andb_true_iff in F. destruct F as [F1 F2].
      apply com_cnpj_true in F1. apply negb_true_iff, com_id_false in F2.
      apply first_Some in Ex. destruct Ex as [Ha Hi]. apply com_id_true in Hi.
      apply F2. rewrite <- Hi. apply R; auto; [congruence|].
      rewrite F1. apply validar_cnpj_nao_vazio. exact V. }
    exists (aplica (Some (Re.sub_nao_digitos c)) u antes),
      (grava i (aplica (Some (Re.sub_nao_digitos c)) u) db).
    split; [|split; [exact Own|]].
    + apply atualizar_Retorna. exists antes, (Some (Re.sub_nao_digitos c)).
      rewrite C. cbn [EmpresaUpdate.valor]. repeat split; auto.
    + unfold buscar_empresa.
      rewrite (first_grava i _ db antes (aplica_id _ u) Ex). reflexivity.
Qed.

End Unicidade.

(** ** Delete *)

Section Remocao.
Import Validacao Spec Router Exemplos.

Lemma filter_todos (i : Z) (l : list Empresa.t) :
  (forall e, In e l -> Empresa.id e <> i) ->
  filter (fun e => negb (com_id i e)) l = l.
Proof.
  induction l as [|y l IH]; cbn; intros H; [reflexivity|].
  replace (com_id i y) with false.
  - cbn. rewrite IH; [reflexivity|]. intros e He. apply H. right. exact He.
  - symmetry. apply com_id_false. apply H. left. reflexivity.
Qed.

(** Under a primary key, deleting an identity that is there removes one
    row. *)
Lemma length_sem_o_deletado (i : Z) (l : list Empresa.t) :
  NoDup (map Empresa.id l) ->
  (exists e, In e l /\ Empresa.id e = i) ->
  S (List.length (filter (fun e => negb (com_id i e)) l)) = List.length l.
Proof.
  induction l as [|y l IH]; cbn; intros N [e [He Hi]]; [contradiction|].
  inversion N as [|? ? Y1 Y2]; subst.
  destruct (com_id (Empresa.id e) y) eqn:E; cbn.
  - apply com_id_true in E. rewrite filter_todos; [reflexivity|].
    intros x Hx Q. apply Y1. rewrite E, <- Q. apply in_map. exact Hx.
  - f_equal. apply IH; [exact Y2|]. exists e. split; [|reflexivity].
    destruct He as [->|He]; [|exact He].
    apply com_id_false in E. contradiction.
Qed.

(** C8.  Deleting an identity no company has raises not-found and
    nothing else, and leaves the table as it was.  Deleting an existing
    company returns, removes its record and only it (the other records,
    and what a lookup by another identity answers, are unchanged), and a
    lookup by the deleted identity then raises not-found; in a state
    the handlers reach, the table has exactly one record less. *)
Theorem deletar_empresa_correto (empresa_id : Z) (db : Db) :
  ((forall e, In e (empresas db) -> Empresa.id e <> empresa_id) ->
     deletar_empresa empresa_id db = (Levanta nao_encontrada, db)
     /\ classifica nao_encontrada = NotFound)
  /\ ((exists e, In e (empresas db) /\ Empresa.id e = empresa_id) ->
      exists db',
        deletar_empresa empresa_id db = (Retorna tt, db')
        /\ (forall e, In e (empresas db') <->
                      In e (empresas db) /\ Empresa.id e <> empresa_id)
        /\ (forall j, j <> empresa_id ->
                      buscar_empresa j db' = buscar_empresa j db)
        /\ buscar_empresa empresa_id db' = Levanta nao_encontrada
        /\ (alcancavel db ->
            S (List.length (empresas db')) = List.length (empresas db))).
Proof.
  split.
  - intros H. split; [|reflexivity]. unfold deletar_empresa.
    destruct (first (com_id empresa_id) db) as [x|] eqn:F; [|reflexivity].
    apply first_Some in F. destruct F as [Hx Hi].
    apply com_id_true in Hi. elim (H x Hx Hi).
  - intros H. unfold deletar_empresa.
    destruct (first_existe (com_id empresa_id) db) as [x F].
    { destruct H as [e [He Hi]]. exists e. rewrite com_id_true. auto. }
    rewrite F. eexists. split; [reflexivity|]. cbn [empresas].
    split; [|split; [|split]].
    + intros e. rewrite filter_In, negb_true_iff, com_id_false. tauto.
    + intros j Hj. unfold buscar_empresa, first. cbn [empresas].
      rewrite find_sem_o_deletado by exact Hj. reflexivity.
    + unfold buscar_empresa.
      destruct (first (com_id empresa_id) {| empresas := _; auto_increment := _ |})
        as [y|] eqn:G; [|reflexivity].
      apply first_Some in G. cbn [empresas] in G. destruct G as [G1 G2].
      apply filter_In in G1. destruct G1 as [_ G1]. rewrite G2 in G1. discriminate.
    + intros R. apply length_sem_o_deletado; [|exact H].
      apply (alcancavel_ids_distintos db R).
Qed.

(** In the table of [acme] and [beta]: identity 7 is unknown; deleting
    [acme] (identity 1) succeeds. *)
Lemma deletar_empresa_correto_witness :
  deletar_empresa 7 db2 = (Levanta nao_encontrada, db2)
  /\ exists db',
       deletar_empresa 1 db2 = (Retorna tt, db')
       /\ buscar_empresa 1 db' = Levanta nao_encontrada
       /\ buscar_empresa 2 db' = buscar_empresa 2 db2.
Proof.
  split.
  - apply (proj1 (deletar_empresa_correto 7 db2)).
    intros e He. vm_compute in He.
    destruct He as [<-|[<-|[]]]; discriminate.
  - destruct (proj2 (deletar_empresa_correto 1 db2)) as [db' [D [_ [O [G _]]]]].
    + eexists; split; [left; reflexivity|reflexivity].
    + exists db'. split; [exact D|]. split; [exact G|]. apply O. discriminate.
Defined.

End Remocao.

Section AtualizacaoExemplos.
Import Validacao Spec Router Exemplos.

Ltac sem_reprovacao :=
  let F := fresh in
  intros F; apply reprovado_spec in F; vm_compute in F; discriminate F.

(** [acme] has the website ["w"]; setting only its legal name keeps
    it. *)
Lemma atualizar_preserva_ausentes_witness :
  exists depois db',
    atualizar_empresa 1 (so_razao_social "x") db1 = (Retorna depois, db')
    /\ Empresa.razao_social depois = Some "x"
    /\ Empresa.website depois = Some "w".
Proof.
  eexists _, _. split; [reflexivity|]. split; [reflexivity|].
  destruct (proj1 atualizar_preserva_ausentes 1%Z (so_razao_social "x") db1 _ linha_acme _
              eq_refl eq_refl) as [[_ [_ [_ [_ [_ [_ W]]]]]] _].
  rewrite (W eq_refl). reflexivity.
Defined.

(** With [acme] (1) and [beta] (2) registered: identity 7 is unknown;
    giving [beta] the tax ID of [acme] is a conflict; giving [acme] its
    own tax ID, written otherwise, returns. *)
Lemma atualizar_cnpj_correto_witness :
  atualizar_empresa 7 (so_cnpj "12.345.678/0001-95") db2 = (Levanta nao_encontrada, db2)
  /\ (exists e, atualizar_empresa 2 (so_cnpj "12.345.678/0001-95") db2 = (Levanta e, db2)
                /\ classifica e = Conflict)
  /\ (exists depois db',
         atualizar_empresa 1 (so_cnpj "12345678/0001-95") db2 = (Retorna depois, db')
         /\ Empresa.cnpj depois = "12345678000195"
         /\ buscar_empresa 1 db' = Retorna depois).
Proof.
  split; [|split].
  - apply (proj1 atualizar_cnpj_correto 7%Z _ db2).
    intros e He. vm_compute in He.
    destruct He as [<-|[<-|[]]]; discriminate.
  - apply (proj1 (proj2 atualizar_cnpj_correto) 2%Z _ db2 linha_beta "12.345.678/0001-95");
      try reflexivity.
    eexists. split; [left; reflexivity|]. split; [reflexivity|discriminate].
  - apply (proj2 (proj2 atualizar_cnpj_correto) 1%Z _ db2 linha_acme "12345678/0001-95");
      try reflexivity.
    + exact (alc_criar beta _ (alc_criar acme _ alc_vazio)).
    + sem_reprovacao.
    + sem_reprovacao.
Defined.

(** In [db3] the tax ID of [acme] is already blank; blanking that of
    [beta] is not refused. *)
Lemma atualizar_cnpj_vazio_witness :
  exists depois db',
    atualizar_empresa 2 (so_cnpj "") db3 = (Retorna depois, db')
    /\ Empresa.cnpj depois = ""
    /\ validar_cnpj (Empresa.cnpj depois) = false
    /\ buscar_empresa 2 db' = Retorna depois.
Proof.
  apply (proj1 (proj2 (proj2
           (atualizar_cnpj_vazio 2 (so_cnpj "") db3 linha_beta eq_refl eq_refl)))).
  - sem_reprovacao.
  - sem_reprovacao.
Defined.

(** With [acme] (1) and [beta] (2) registered, an update of [acme] that
    supplies its own tax ID and a malformed email raises a validation
    error.  In [db3], where [acme] holds the blank tax ID, an update of
    [beta] whose tax ID ["-"] strips to blank raises a validation error
    too, not a conflict. *)
Lemma atualizar_cnpj_sem_sucesso_nem_conflito :
  (existe 1 linha_acme db2
   /\ Re.sub_nao_digitos "12.345.678/0001-95" = Empresa.cnpj linha_acme
   /\ atualizar_empresa 1 (cnpj_e_email_ruim "12.345.678/0001-95") db2
      = (Levanta email_invalido, db2)
   /\ classifica email_invalido = ValidationError)
  /\ (alcancavel db3
      /\ existe 2 linha_beta db3
      /\ cnpj_de_outra 2 (Re.sub_nao_digitos "-") db3
      /\ atualizar_empresa 2 (so_cnpj "-") db3 = (Levanta cnpj_invalido, db3)
      /\ classifica cnpj_invalido = ValidationError).
Proof.
  split.
  - repeat split.
  - split.
    { exact (alc_atualizar 1 (so_cnpj "") _
               (alc_criar beta _ (alc_criar acme _ alc_vazio))). }
    split; [reflexivity|]. split; [|split; reflexivity].
    eexists. split; [left; reflexivity|]. split; [reflexivity|discriminate].
Qed.

(** With [acme] (1) registered, an update that blanks its tax ID and
    supplies a malformed email raises a validation error and stores
    nothing: the tax ID of [acme] is as before. *)
Lemma atualizar_cnpj_vazio_email_invalido :
  existe 1 linha_acme db2
  /\ EmpresaUpdate.cnpj (cnpj_e_email_ruim "") = Some (Some "")
  /\ atualizar_empresa 1 (cnpj_e_email_ruim "") db2 = (Levanta email_invalido, db2)
  /\ classifica email_invalido = ValidationError
  /\ buscar_empresa 1 db2 = Retorna linha_acme.
Proof. repeat split. Qed.

End AtualizacaoExemplos.

(** ** Borrow and return *)

Section Emprestimos.
Import Borrow.

Lemma existsb_abertos (copy : Z) (st : Store) :
  existsb (aberto_da_copia copy) (borrows st) = false <-> abertos copy st = [].
Proof.
  unfold abertos. induction (borrows st) as [|b l IH]; cbn; [tauto|].
  destruct (aberto_da_copia copy b); cbn; [split; discriminate|exact IH].
Qed.

Lemma create_borrow_livre (borrower lender copy : Z) (st : Store) :
  abertos copy st = [] ->
  create_borrow borrower lender copy st
  = (inl (Build (auto_increment st) borrower lender copy Open),
     {| borrows := borrows st ++ [Build (auto_increment st) borrower lender copy Open];
        auto_increment := auto_increment st + 1 |}).
Proof.
  intros H. apply existsb_abertos in H. unfold create_borrow. rewrite H. reflexivity.
Qed.

Lemma create_borrow_ocupada (borrower lender copy : Z) (st : Store) :
  abertos copy st <> [] ->
  create_borrow borrower lender copy st = (inr Conflict, st).
Proof.
  intros H. unfold create_borrow.
  destruct (existsb (aberto_da_copia copy) (borrows st)) eqn:E; [reflexivity|].
  apply existsb_abertos in E. contradiction.
Qed.

(** The open borrows of a copy after a return are those that were open
    and have another identity. *)
Lemma abertos_devolve (borrow_id copy : Z) (l : list t) :
  filter (aberto_da_copia copy) (map (devolve borrow_id) l)
  = filter (fun b => aberto_da_copia copy b && negb (Z.eqb (id b) borrow_id)) l.
Proof.
  induction l as [|b l IH]; [reflexivity|]. cbn [map filter]. rewrite IH.
  unfold devolve. destruct (Z.eqb (id b) borrow_id); cbn [negb].
  - unfold aberto_da_copia at 1, aberto. cbn. rewrite !andb_false_r. reflexivity.
  - rewrite andb_true_r. reflexivity.
Qed.

Lemma length_filter_e (p q : t -> bool) (l : list t) :
  (List.length (filter (fun b => p b && q b) l) <= List.length (filter p l))%nat.
Proof.
  induction l as [|b l IH]; cbn; [lia|].
  destruct (p b), (q b); cbn; lia.
Qed.

Lemma create_preserva (borrower lender copy : Z) (st : Store) :
  no_maximo_um_aberto st ->
  no_maximo_um_aberto (snd (create_borrow borrower lender copy st)).
Proof.
  intros I. unfold create_borrow.
  destruct (existsb (aberto_da_copia copy) (borrows st)) eqn:E; [exact I|].
  apply existsb_abertos in E. cbn [snd]. intros c.
  unfold abertos in *. cbn [borrows]. rewrite filter_app, length_app. cbn [filter].
  unfold aberto_da_copia at 2. cbn [copy_id aberto state]. rewrite andb_true_r.
  destruct (Z.eqb_spec copy c) as [->|N]; cbn [List.length].
  - rewrite E. cbn. lia.
  - specialize (I c). unfold abertos in I. lia.
Qed.

Lemma return_preserva (borrow_id : Z) (st : Store) :
  no_maximo_um_aberto st ->
  no_maximo_um_aberto (snd (return_borrow borrow_id st)).
Proof.
  intros I. unfold return_borrow.
  destruct (find _ (borrows st)) as [b|]; [|exact I].
  destruct (state b); [|exact I]. cbn [snd]. intros c.
  unfold abertos. cbn [borrows]. rewrite abertos_devolve.
  specialize (I c). unfold abertos in I.
  pose proof (length_filter_e (aberto_da_copia c)
                (fun b => negb (Z.eqb (id b) borrow_id)) (borrows st)).
  lia.
Qed.

Lemma alcancavel_um_aberto (st : Store) : alcancavel st -> no_maximo_um_aberto st.
Proof.
  induction 1.
  - intros c. cbn. lia.
  - apply create_preserva; assumption.
  - apply return_preserva; assumption.
Qed.

(** What a successful return did. *)
Lemma return_borrow_inl (borrow_id : Z) (st st' : Store) (b' : t) :
  return_borrow borrow_id st = (inl b', st') ->
  exists b,
    find (fun x => Z.eqb (id x) borrow_id) (borrows st) = Some b
    /\ state b = Open
    /\ b' = devolve borrow_id b
    /\ st' = {| borrows := map (devolve borrow_id) (borrows st);
                auto_increment := auto_increment st |}.
Proof.
  unfold return_borrow.
  destruct (find _ (borrows st)) as [b|] eqn:F; [|discriminate].
  destruct (state b) eqn:S; [|discriminate].
  intros H; injection H as <- <-. exists b. auto.
Qed.

Lemma find_devolve (borrow_id : Z) (l : list t) (b : t) :
  find (fun x => Z.eqb (id x) borrow_id) l = Some b ->
  find (fun x => Z.eqb (id x) borrow_id) (map (devolve borrow_id) l)
  = Some (devolve borrow_id b).
Proof.
  induction l as [|y l IH]; cbn; [discriminate|].
  destruct (Z.eqb (id y) borrow_id) eqn:E.
  - intros H; injection H as <-. unfold devolve at 1. rewrite E. cbn [id].
    rewrite E. unfold devolve. rewrite E. reflexivity.
  - unfold devolve at 1. rewrite E, E. exact IH.
Qed.

(** After a successful return the copy of the returned borrow has no
    open borrow left, when it had at most one. *)
Lemma abertos_apos_return (borrow_id : Z) (st st' : Store) (b' : t) :
  no_maximo_um_aberto st ->
  return_borrow borrow_id st = (inl b', st') ->
  abertos (copy_id b') st' = [].
Proof.
  intros I H. apply return_borrow_inl in H.
  destruct H as [b [F [S [-> ->]]]].
  apply find_some in F. destruct F as [Hb Hi].
  assert (C : copy_id (devolve borrow_id b) = copy_id b).
  { unfold devolve. rewrite Hi. reflexivity. }
  rewrite C. unfold abertos. cbn [borrows]. rewrite abertos_devolve.
  specialize (I (copy_id b)). unfold abertos in I.
  assert (Hin : In b (filter (aberto_da_copia (copy_id b)) (borrows st))).
  { apply filter_In. split; [exact Hb|].
    unfold aberto_da_copia, aberto. rewrite Z.eqb_refl, S. reflexivity. }
  destruct (filter (fun x => aberto_da_copia (copy_id b) x && negb (Z.eqb (id x) borrow_id))
              (borrows st)) as [|x r] eqn:Q; [reflexivity|]. exfalso.
  assert (Hx : In x (x :: r)) by (left; reflexivity).
  rewrite <- Q in Hx. apply filter_In in Hx. destruct Hx as [Hx1 Hx2].
  apply andb_true_iff in Hx2. destruct Hx2 as [Hx2 Hx3].
  assert (Hx' : In x (filter (aberto_da_copia (copy_id b)) (borrows st))).
  { apply filter_In. auto. }
  destruct (filter (aberto_da_copia (copy_id b)) (borrows st)) as [|y [|z w]];
    cbn in I, Hin, Hx'; try lia; try contradiction.
  destruct Hin as [<-|[]], Hx' as [<-|[]].
  rewrite Hi in Hx3. discriminate.
Qed.

(** C7.  In every state the two operations reach, each copy has at most
    one open borrow.  Creating a borrow for a copy that has an open one
    is a conflict and changes nothing.  Returning a borrow that is not
    open fails, so the second of two returns of one borrow is refused.
    After a successful return, a new borrow of the same copy is created
    open, and is then the copy's only open borrow. *)
Theorem emprestimo_unico_por_copia :
  (forall st, alcancavel st -> no_maximo_um_aberto st)
  /\ (forall borrower lender copy st,
         abertos copy st <> [] ->
         create_borrow borrower lender copy st = (inr Conflict, st))
  /\ (forall borrow_id st b,
         find (fun x => Z.eqb (id x) borrow_id) (borrows st) = Some b ->
         state b = Returned ->
         return_borrow borrow_id st = (inr Conflict, st))
  /\ (forall borrow_id st b st',
         return_borrow borrow_id st = (inl b, st') ->
         state b = Returned
         /\ return_borrow borrow_id st' = (inr Conflict, st'))
  /\ (forall borrow_id st b st' borrower lender,
         alcancavel st ->
         return_borrow borrow_id st = (inl b, st') ->
         exists novo st'',
           create_borrow borrower lender (copy_id b) st' = (inl novo, st'')
           /\ state novo = Open
           /\ copy_id novo = copy_id b
           /\ abertos (copy_id b) st'' = [novo]).
Proof.
  split; [exact alcancavel_um_aberto|].
  split; [exact create_borrow_ocupada|].
  split; [|split].
  - intros borrow_id st b F S. unfold return_borrow. rewrite F, S. reflexivity.
  - intros borrow_id st b st' H. apply return_borrow_inl in H.
    destruct H as [b0 [F [S [-> ->]]]].
    pose proof (find_some _ _ F) as [_ Hi].
    split; [unfold devolve; rewrite Hi; reflexivity|].
    unfold return_borrow. cbn [borrows]. rewrite (find_devolve _ _ _ F).
    unfold devolve at 1. rewrite Hi. reflexivity.
  - intros borrow_id st b st' borrower lender R H.
    pose proof (abertos_apos_return _ _ _ _ (alcancavel_um_aberto st R) H) as E.
    rewrite (create_borrow_livre borrower lender _ st' E).
    eexists _, _. split; [reflexivity|]. split; [reflexivity|]. split; [reflexivity|].
    unfold abertos in *. cbn [borrows]. rewrite filter_app, E. cbn.
    unfold aberto_da_copia. cbn. rewrite Z.eqb_refl. reflexivity.
Qed.

(** Copy 5 is out: lending it again is a conflict; returning borrow 1
    succeeds once; then copy 5 can be lent again. *)
Lemma emprestimo_unico_por_copia_witness :
  create_borrow 11 20 5 Exemplos.emprestado = (inr Conflict, Exemplos.emprestado)
  /\ (exists b st',
         return_borrow 1 Exemplos.emprestado = (inl b, st')
         /\ return_borrow 1 st' = (inr Conflict, st')
         /\ exists novo st'',
             create_borrow 11 20 5 st' = (inl novo, st'') /\ state novo = Open).
Proof.
  split.
  - apply (proj1 (proj2 emprestimo_unico_por_copia)). discriminate.
  - eexists _, _. split; [reflexivity|]. split.
    + apply (proj1 (proj2 (proj2 (proj2 emprestimo_unico_por_copia))) 1%Z
               Exemplos.emprestado _ _ eq_refl).
    + destruct (proj2 (proj2 (proj2 (proj2 emprestimo_unico_por_copia))) 1%Z
                  Exemplos.emprestado _ _ 11%Z 20%Z
                  (alc_create 10 20 5 vazio alc_vazio) eq_refl)
        as [novo [st'' [C [S _]]]].
      exists novo, st''. split; [exact C|exact S].
Defined.

End Emprestimos.

(** * Further properties of the router *)

(** ** The sample tables *)

Section TabelasAlcancaveis.
Import Spec Router Exemplos Tabelas.

Lemma tabela1_criada : criar_empresa acme db_vazio = (Retorna linha_acme, tabela1).
Proof. vm_compute. reflexivity. Qed.

Lemma tabela2_criada : criar_empresa beta tabela1 = (Retorna linha_beta, tabela2).
Proof. vm_compute. reflexivity. Qed.

Lemma tabela1_alcancavel : alcancavel tabela1.
Proof.
  change tabela1 with (snd (Retorna linha_acme, tabela1)).
  rewrite <- tabela1_criada. apply alc_criar, alc_vazio.
Qed.

Lemma tabela2_alcancavel : alcancavel tabela2.
Proof.
  change tabela2 with (snd (Retorna linha_beta, tabela2)).
  rewrite <- tabela2_criada. apply alc_criar, tabela1_alcancavel.
Qed.

End TabelasAlcancaveis.

(** ** Listing *)

Section Listagem.
Import Validacao Spec Router Exemplos Tabelas.

Lemma nth_error_skipn_soma {A : Type} (n k : nat) (l : list A) :
  nth_error (skipn n l) k = nth_error l (n + k).
Proof.
  revert l. induction n as [|n IH]; intros l; [reflexivity|].
  destruct l as [|y l]; [destruct k; reflexivity|]. cbn. apply IH.
Qed.

Lemma nth_error_firstn_menor {A : Type} (n k : nat) (l : list A) :
  (k < n)%nat -> nth_error (firstn n l) k = nth_error l k.
Proof.
  revert k l. induction n as [|n IH]; intros k l H; [lia|].
  destruct l as [|y l]; [reflexivity|].
  destruct k as [|k]; [reflexivity|]. cbn. apply IH. lia.
Qed.

Lemma firstn_soma {A : Type} (a b : nat) (l : list A) :
  firstn (a + b) l = (firstn a l ++ firstn b (skipn a l))%list.
Proof.
  revert l. induction a as [|a IH]; intros l; [reflexivity|].
  destruct l as [|y l]; cbn; [destruct b; reflexivity|]. rewrite IH. reflexivity.
Qed.

Lemma skipn_soma {A : Type} (a b : nat) (l : list A) :
  skipn (a + b) l = skipn b (skipn a l).
Proof.
  revert l. induction a as [|a IH]; intros l; [reflexivity|].
  destruct l as [|y l]; cbn; [destruct b; reflexivity|]. apply IH.
Qed.

Lemma In_firstn_skipn {A : Type} (n m : nat) (l : list A) (x : A) :
  In x (firstn n (skipn m l)) -> In x l.
Proof.
  intros H. rewrite <- (firstn_skipn m l). apply in_or_app. right.
  rewrite <- (firstn_skipn n (skipn m l)). apply in_or_app. left. exact H.
Qed.

Lemma listar_empresas_aceito (skip limit : Z) (db : Db) :
  (0 <= skip <= LIMIT_MAX)%Z -> (0 <= limit <= LIMIT_MAX)%Z ->
  listar_empresas skip limit db
  = Linhas (firstn (Z.to_nat limit) (skipn (Z.to_nat skip) (empresas db))).
Proof.
  intros [H1 H2] [H3 H4]. unfold listar_empresas.
  apply Z.leb_le in H1, H2, H3, H4. rewrite H1, H2, H3, H4. reflexivity.
Qed.

(** X1.  For an offset and a limit MySQL accepts, the listing returns
    the rows of the table from position [skip] on, in the order of the
    table: as many as [limit], or as are left. *)
Theorem listar_empresas_pagina (skip limit : Z) (db : Db) :
  (0 <= skip <= LIMIT_MAX)%Z -> (0 <= limit <= LIMIT_MAX)%Z ->
  exists l,
    listar_empresas skip limit db = Linhas l
    /\ List.length l
       = Nat.min (Z.to_nat limit) (List.length (empresas db) - Z.to_nat skip)
    /\ (forall k, (k < List.length l)%nat ->
                  nth_error l k = nth_error (empresas db) (Z.to_nat skip + k))
    /\ (forall e, In e l -> In e (empresas db)).
Proof.
  intros Hs Hl. rewrite (listar_empresas_aceito skip limit db Hs Hl).
  eexists. split; [reflexivity|]. split; [|split].
  - rewrite length_firstn, length_skipn. reflexivity.
  - intros k Hk. rewrite length_firstn in Hk.
    rewrite nth_error_firstn_menor by lia. apply nth_error_skipn_soma.
  - intros e He. apply (In_firstn_skipn _ _ _ _ He).
Qed.

Lemma listar_empresas_pagina_witness :
  exists l,
    listar_empresas 1 5 tabela2 = Linhas l
    /\ List.length l = 1%nat
    /\ nth_error l 0 = Some linha_beta.
Proof.
  destruct (listar_empresas_pagina 1 5 tabela2) as [l [E [L [N _]]]];
    [split; vm_compute; discriminate|split; vm_compute; discriminate|].
  exists l. split; [exact E|]. split; [exact L|].
  rewrite (N 0%nat); [reflexivity|]. rewrite L. vm_compute. lia.
Defined.

(** X2.  Two pages that follow each other make up the one page of
    their joint size: the page of [a] rows at [skip] followed by the
    page of [b] rows at [skip + a] is the page of [a + b] rows at
    [skip]. *)
Theorem listar_empresas_paginas_seguidas (skip a b : Z) (db : Db) :
  (0 <= skip)%Z -> (0 <= a)%Z -> (0 <= b)%Z -> (skip + a + b <= LIMIT_MAX)%Z ->
  exists l1 l2,
    listar_empresas skip a db = Linhas l1
    /\ listar_empresas (skip + a) b db = Linhas l2
    /\ listar_empresas skip (a + b) db = Linhas (l1 ++ l2).
Proof.
  intros Hs Ha Hb Hm.
  rewrite !listar_empresas_aceito by lia.
  eexists _, _. split; [reflexivity|]. split; [reflexivity|].
  rewrite !Z2Nat.inj_add by lia. rewrite firstn_soma, skipn_soma. reflexivity.
Qed.

Lemma listar_empresas_paginas_seguidas_witness :
  exists l1 l2,
    listar_empresas 0 1 tabela2 = Linhas l1
    /\ listar_empresas (0 + 1) 1 tabela2 = Linhas l2
    /\ listar_empresas 0 (1 + 1) tabela2 = Linhas (l1 ++ l2).
Proof.
  apply (listar_empresas_paginas_seguidas 0 1 1 tabela2); vm_compute; discriminate.
Defined.

End Listagem.

(** ** Looking up what was written *)

Section Buscas.
Import Validacao Spec Router Exemplos Tabelas.

Lemma mesma_linha (l : list Empresa.t) (x e : Empresa.t) :
  NoDup (map Empresa.id l) -> In x l -> In e l ->
  Empresa.id x = Empresa.id e -> x = e.
Proof.
  induction l as [|y l IH]; cbn; intros N Hx He Q; [contradiction|].
  inversion N as [|? ? Y1 Y2]; subst.
  destruct Hx as [->|Hx], He as [->|He]; auto.
  - elim Y1. rewrite Q. apply in_map. exact He.
  - elim Y1. rewrite <- Q. apply in_map. exact Hx.
Qed.

Lemma first_da_linha (db : Db) (e : Empresa.t) :
  ids_distintos db -> In e (empresas db) ->
  first (com_id (Empresa.id e)) db = Some e.
Proof.
  intros [N _] He.
  destruct (first_existe (com_id (Empresa.id e)) db) as [x F].
  { exists e. split; [exact He|]. apply com_id_true. reflexivity. }
  rewrite F. f_equal. apply first_Some in F. destruct F as [Hx Q].
  apply com_id_true in Q. apply (mesma_linha (empresas db)); assumption.
Qed.

Lemma find_prefixo {A : Type} (p : A -> bool) (l l' : list A) (x : A) :
  find p l = Some x -> find p (l ++ l') = Some x.
Proof.
  induction l as [|y l IH]; cbn; [discriminate|].
  destruct (p y); [auto|exact IH].
Qed.

(** What a returning create did. *)
Lemma criar_Retorna (p : EmpresaCreate.t) (db db' : Db) (r : Empresa.t) :
  criar_empresa p db = (Retorna r, db') ->
  db' = {| empresas := empresas db ++ [r]; auto_increment := auto_increment db + 1 |}
  /\ Empresa.id r = auto_increment db
  /\ Empresa.cnpj r = Re.sub_nao_digitos (EmpresaCreate.cnpj p)
  /\ validar_cnpj (EmpresaCreate.cnpj p) = true
  /\ ~ cnpj_em_uso (Empresa.cnpj r) db.
Proof.
  intros H. unfold criar_empresa in H.
  destruct (validar_cnpj _) eqn:V; cbn [negb] in H; cbv iota in H; [|discriminate].
  destruct (reprovado validar_email _); [discriminate|].
  destruct (reprovado validar_telefone _); [discriminate|]. cbv zeta in H.
  destruct (first (com_cnpj _) db) as [x|] eqn:F; [discriminate|].
  injection H as <- <-. cbn. repeat split.
  intros U. apply cnpj_em_uso_first in U. destruct U as [e U]. congruence.
Qed.

(** X3.  In every state the handlers reach, a listing from the start
    whose limit is at least the number of companies returns the whole
    table, no two listed companies have the same identity, and the
    listed companies are exactly those the lookup by identity returns. *)
Theorem listar_empresas_e_busca (limit : Z) (db : Db) :
  alcancavel db ->
  (Z.of_nat (List.length (empresas db)) <= limit <= LIMIT_MAX)%Z ->
  listar_empresas 0 limit db = Linhas (empresas db)
  /\ NoDup (map Empresa.id (empresas db))
  /\ (forall e, In e (empresas db) <-> buscar_empresa (Empresa.id e) db = Retorna e).
Proof.
  intros R [H1 H2]. pose proof (alcancavel_ids_distintos db R) as I.
  split; [|split].
  - rewrite listar_empresas_aceito by (unfold LIMIT_MAX in *; lia).
    cbn [Z.to_nat skipn]. rewrite firstn_all2 by lia. reflexivity.
  - apply I.
  - intros e. unfold buscar_empresa. split.
    + intros He. rewrite (first_da_linha db e I He). reflexivity.
    + destruct (first _ db) as [x|] eqn:F; [|discriminate].
      intros Q; injection Q as ->. apply (first_Some _ _ _ F).
Qed.

Lemma listar_empresas_e_busca_witness :
  listar_empresas 0 100 tabela2 = Linhas (empresas tabela2)
  /\ buscar_empresa (Empresa.id linha_beta) tabela2 = Retorna linha_beta.
Proof.
  destruct (listar_empresas_e_busca 100 tabela2) as [L [_ B]].
  - exact tabela2_alcancavel.
  - split; vm_compute; discriminate.
  - split; [exact L|]. apply (proj1 (B linha_beta)). right; left; reflexivity.
Defined.

(** X4.  In every state the handlers reach, a company whose tax ID is
    not blank is the one the lookup by its tax ID returns, and also the
    one the lookup by its identity returns: the two lookups agree. *)
Theorem buscas_concordam (db : Db) (e : Empresa.t) :
  alcancavel db -> In e (empresas db) -> Empresa.cnpj e <> EmptyString ->
  buscar_empresa_por_cnpj (Empresa.cnpj e) db = Retorna e
  /\ buscar_empresa (Empresa.id e) db = Retorna e.
Proof.
  intros R He Hn.
  pose proof (alcancavel_ids_distintos db R) as I.
  pose proof (alcancavel_cnpj_unico db R) as U.
  destruct (alcancavel_cnpj_so_digitos db R e He) as [D _].
  split.
  - unfold buscar_empresa_por_cnpj. rewrite D.
    destruct (first_existe (com_cnpj (Empresa.cnpj e)) db) as [x F].
    { exists e. split; [exact He|]. apply com_cnpj_true. reflexivity. }
    rewrite F. f_equal. apply first_Some in F. destruct F as [Hx Q].
    apply com_cnpj_true in Q.
    apply (mesma_linha (empresas db)); auto; [apply I|].
    apply U; auto. congruence.
  - unfold buscar_empresa. rewrite (first_da_linha db e I He). reflexivity.
Qed.

Lemma buscas_concordam_witness :
  buscar_empresa_por_cnpj "98765432000110" tabela2 = Retorna linha_beta
  /\ buscar_empresa 2 tabela2 = Retorna linha_beta.
Proof.
  apply (buscas_concordam tabela2 linha_beta).
  - exact tabela2_alcancavel.
  - right; left; reflexivity.
  - discriminate.
Defined.

(** X5.  In every state the handlers reach, a create that returns gives
    the new company an identity no company had; the lookup by that
    identity then returns the new record, and every lookup by identity
    that returned a record before returns the same record after. *)
Theorem criar_e_buscar (p : EmpresaCreate.t) (db db' : Db) (r : Empresa.t) :
  alcancavel db ->
  criar_empresa p db = (Retorna r, db') ->
  buscar_empresa (Empresa.id r) db = Levanta nao_encontrada
  /\ buscar_empresa (Empresa.id r) db' = Retorna r
  /\ (forall j e, buscar_empresa j db = Retorna e -> buscar_empresa j db' = Retorna e).
Proof.
  intros R H. apply criar_Retorna in H. destruct H as [-> [Hi _]].
  destruct (alcancavel_ids_distintos db R) as [_ B].
  assert (F : first (com_id (Empresa.id r)) db = None).
  { apply first_None. intros e He. apply com_id_false. specialize (B e He). lia. }
  unfold buscar_empresa. split; [rewrite F; reflexivity|]. split.
  - rewrite (first_app_novo _ db r _ F); [reflexivity|].
    apply com_id_true. reflexivity.
  - intros j e. unfold first. cbn [empresas].
    destruct (find (com_id j) (empresas db)) as [x|] eqn:G; [|discriminate].
    intros Q; injection Q as ->. rewrite (find_prefixo _ _ _ _ G). reflexivity.
Qed.

Lemma criar_e_buscar_witness :
  buscar_empresa 2 tabela1 = Levanta nao_encontrada
  /\ buscar_empresa 2 tabela2 = Retorna linha_beta
  /\ buscar_empresa 1 tabela2 = Retorna linha_acme.
Proof.
  destruct (criar_e_buscar beta tabela1 tabela2 linha_beta) as [A [B C]].
  - exact tabela1_alcancavel.
  - exact tabela2_criada.
  - split; [exact A|]. split; [exact B|]. apply (C 1%Z linha_acme). reflexivity.
Defined.

End Buscas.

(** ** Writing *)

Section Escritas.
Import Validacao Spec Router Exemplos Tabelas Uso.

(** X6.  A create looks at the tax ID of its payload only through its
    digits: two payloads that differ only in how the same digits are
    written get the same answer and leave the same table. *)
Theorem criar_empresa_formatacao (c1 c2 : string) (p : EmpresaCreate.t) (db : Db) :
  Re.sub_nao_digitos c1 = Re.sub_nao_digitos c2 ->
  criar_empresa (com_cnpj_escrito c1 p) db = criar_empresa (com_cnpj_escrito c2 p) db.
Proof.
  intros H. unfold criar_empresa, com_cnpj_escrito.
  cbn [EmpresaCreate.cnpj EmpresaCreate.razao_social EmpresaCreate.nome_fantasia
       EmpresaCreate.numero_contato EmpresaCreate.email_contato EmpresaCreate.website].
  rewrite (validar_cnpj_mesmos_digitos c1 c2 H), H. reflexivity.
Qed.

Lemma criar_empresa_formatacao_witness :
  criar_empresa (com_cnpj_escrito "12.345.678/0001-95" acme_filial) tabela1
  = criar_empresa (com_cnpj_escrito "12 345 678 0001 95" acme_filial) tabela1.
Proof.
  apply (criar_empresa_formatacao "12.345.678/0001-95" "12 345 678 0001 95").
  vm_compute. reflexivity.
Defined.

(** X7.  A handler that raises has written nothing: after a create, an
    update or a delete that raises, the table is the one before. *)
Theorem erro_nao_grava :
  (forall p db e db', criar_empresa p db = (Levanta e, db') -> db' = db)
  /\ (forall i u db e db', atualizar_empresa i u db = (Levanta e, db') -> db' = db)
  /\ (forall i db e db', deletar_empresa i db = (Levanta e, db') -> db' = db).
Proof.
  split; [|split].
  - intros p db e db' H.
    destruct (criar_empresa_casos p db) as [[x Q]|[r [Q _]]]; rewrite Q in H.
    + injection H as _ <-. reflexivity.
    + discriminate.
  - intros i u db e db'. apply atualizar_Levanta.
  - intros i db e db'. unfold deletar_empresa.
    destruct (first (com_id i) db); [discriminate|].
    intros H; injection H as _ <-. reflexivity.
Qed.

(** X8.  For an existing company, an update whose payload sets the tax
    ID to null, and whose email and phone pass, raises [TypeError]: an
    error that is none of the router's HTTP errors.  Nothing is
    written. *)
Theorem atualizar_cnpj_nulo (i : Z) (u : EmpresaUpdate.t) (db : Db) (antes : Empresa.t) :
  existe i antes db ->
  EmpresaUpdate.cnpj u = Some None ->
  ~ fornecido_invalido validar_email
      (EmpresaUpdate.valor (EmpresaUpdate.email_contato u)) ->
  ~ fornecido_invalido validar_telefone
      (EmpresaUpdate.valor (EmpresaUpdate.numero_contato u)) ->
  atualizar_empresa i u db = (Levanta TypeError, db)
  /\ classifica TypeError = Generico.
Proof.
  intros Ex C E T. apply reprovado_false in E, T. split; [|reflexivity].
  unfold atualizar_empresa. unfold existe in Ex. rewrite Ex, C.
  cbn [EmpresaUpdate.valor checa_cnpj]. rewrite E, T. reflexivity.
Qed.

Lemma atualizar_cnpj_nulo_witness :
  atualizar_empresa 1
    (EmpresaUpdate.Build (Some None) (Some (Some "Acme SA")) None None None None) tabela2
  = (Levanta TypeError, tabela2)
  /\ classifica TypeError = Generico.
Proof.
  apply (atualizar_cnpj_nulo 1 _ tabela2 linha_acme); try reflexivity;
    intros F; apply reprovado_spec in F; vm_compute in F; discriminate F.
Defined.

Lemma aplica_nada (e : Empresa.t) : aplica None EmpresaUpdate.nenhum e = e.
Proof. destruct e. reflexivity. Qed.

Lemma grava_igual (i : Z) (f : Empresa.t -> Empresa.t) (db : Db) :
  (forall e, In e (empresas db) -> com_id i e = true -> f e = e) ->
  grava i f db = db.
Proof.
  intros H. destruct db as [l k]. unfold grava. cbn [empresas auto_increment] in *.
  f_equal. induction l as [|y l IH]; [reflexivity|]. cbn [map]. f_equal.
  - destruct (com_id i y) eqn:E; [|reflexivity]. apply H; [left; reflexivity|exact E].
  - apply IH. intros e He. apply H. right. exact He.
Qed.

(** X9.  For an existing company, an update whose payload sets no
    field returns the record as it is and leaves the table as it
    was. *)
Theorem atualizar_sem_campos (i : Z) (db : Db) (antes : Empresa.t) :
  existe i antes db ->
  atualizar_empresa i EmpresaUpdate.nenhum db = (Retorna antes, db).
Proof.
  intros Ex. apply atualizar_Retorna. exists antes, None.
  repeat split; try reflexivity; [exact Ex|symmetry; apply aplica_nada|].
  symmetry. apply grava_igual. intros e _ _. apply aplica_nada.
Qed.

Lemma atualizar_sem_campos_witness :
  atualizar_empresa 2 EmpresaUpdate.nenhum tabela2 = (Retorna linha_beta, tabela2).
Proof. apply (atualizar_sem_campos 2 tabela2 linha_beta). reflexivity. Defined.

Lemma aplica_aplica (nc : option string) (u : EmpresaUpdate.t) (e : Empresa.t) :
  aplica nc u (aplica nc u e) = aplica nc u e.
Proof.
  unfold aplica. cbn. f_equal.
  - destruct nc; reflexivity.
  - destruct (EmpresaUpdate.razao_social u); reflexivity.
  - destruct (EmpresaUpdate.nome_fantasia u); reflexivity.
  - destruct (EmpresaUpdate.numero_contato u); reflexivity.
  - destruct (EmpresaUpdate.email_contato u); reflexivity.
  - destruct (EmpresaUpdate.website u); reflexivity.
Qed.

(** The duplicate test of an update does not see the rows of the
    updated identity, so it answers the same after the write. *)
Lemma first_de_outra_grava (i : Z) (n : string) (f : Empresa.t -> Empresa.t) (db : Db) :
  (forall x, Empresa.id (f x) = Empresa.id x) ->
  first (fun e => com_cnpj n e && negb (com_id i e)) (grava i f db)
  = first (fun e => com_cnpj n e && negb (com_id i e)) db.
Proof.
  intros Hf. unfold first, grava. cbn [empresas].
  induction (empresas db) as [|y l IH]; [reflexivity|]. cbn [map find]. cbv beta.
  destruct (com_id i y) eqn:E.
  - assert (E' : com_id i (f y) = true).
    { apply com_id_true. rewrite Hf. apply com_id_true. exact E. }
    rewrite E'. cbn [negb]. rewrite !andb_false_r. exact IH.
  - rewrite E, IH. reflexivity.
Qed.

Lemma checa_cnpj_grava (i : Z) (v : option string) (f : Empresa.t -> Empresa.t) (db : Db) :
  (forall x, Empresa.id (f x) = Empresa.id x) ->
  checa_cnpj i v (grava i f db) = checa_cnpj i v db.
Proof.
  intros Hf. unfold checa_cnpj. destruct v as [c|]; [|reflexivity].
  destruct (verdadeiro (Some c)); [|reflexivity].
  destruct (negb (validar_cnpj c)); [reflexivity|]. cbv zeta.
  rewrite (first_de_outra_grava i _ f db Hf). reflexivity.
Qed.

Lemma grava_grava (i : Z) (f : Empresa.t -> Empresa.t) (db : Db) :
  (forall x, Empresa.id (f x) = Empresa.id x) ->
  (forall x, f (f x) = f x) ->
  grava i f (grava i f db) = grava i f db.
Proof.
  intros Hf Hff. unfold grava. cbn [empresas auto_increment]. f_equal.
  rewrite map_map. apply map_ext. intros y.
  destruct (com_id i y) eqn:E; [|rewrite E; reflexivity].
  assert (E' : com_id i (f y) = true).
  { apply com_id_true. rewrite Hf. apply com_id_true. exact E. }
  rewrite E'. apply Hff.
Qed.

(** X10.  An update that returns can be repeated: the same request on
    the table it left returns the same record and leaves the same
    table. *)
Theorem atualizar_de_novo (i : Z) (u : EmpresaUpdate.t) (db db' : Db) (d : Empresa.t) :
  atualizar_empresa i u db = (Retorna d, db') ->
  atualizar_empresa i u db' = (Retorna d, db').
Proof.
  intros H. apply atualizar_Retorna in H.
  destruct H as [antes [nc [Ex [K [E [T [L [-> ->]]]]]]]].
  apply atualizar_Retorna. exists (aplica nc u antes), nc.
  split; [apply (first_grava i _ db antes (aplica_id nc u) Ex)|].
  split; [rewrite (checa_cnpj_grava i _ _ db (aplica_id nc u)); exact K|].
  repeat split; auto.
  - symmetry. apply aplica_aplica.
  - symmetry. apply grava_grava; [apply aplica_id|apply aplica_aplica].
Qed.

Lemma atualizar_de_novo_witness :
  exists d db',
    atualizar_empresa 2 (so_cnpj "11.222.333/0001-81") tabela2 = (Retorna d, db')
    /\ atualizar_empresa 2 (so_cnpj "11.222.333/0001-81") db' = (Retorna d, db').
Proof.
  eexists _, _. split; [vm_compute; reflexivity|].
  apply (atualizar_de_novo 2 (so_cnpj "11.222.333/0001-81") tabela2).
  vm_compute. reflexivity.
Defined.

(** X11.  An update that returns changes no identity, adds and removes
    no row, and leaves the row of every other company, at its place, as
    it was. *)
Theorem atualizar_so_a_propria (i : Z) (u : EmpresaUpdate.t) (db db' : Db) (d : Empresa.t) :
  atualizar_empresa i u db = (Retorna d, db') ->
  map Empresa.id (empresas db') = map Empresa.id (empresas db)
  /\ auto_increment db' = auto_increment db
  /\ (forall k e, nth_error (empresas db) k = Some e -> Empresa.id e <> i ->
                  nth_error (empresas db') k = Some e).
Proof.
  intros H. apply atualizar_Retorna in H.
  destruct H as [antes [nc [_ [_ [_ [_ [_ [_ ->]]]]]]]].
  unfold grava. cbn [empresas auto_increment]. split; [|split; [reflexivity|]].
  - rewrite map_map. apply map_ext. intros y. destruct (com_id i y); reflexivity.
  - intros k e N Hi. rewrite nth_error_map, N. cbn.
    apply com_id_false in Hi. rewrite Hi. reflexivity.
Qed.

Lemma atualizar_so_a_propria_witness :
  exists d db',
    atualizar_empresa 2 (so_razao_social "Beta Ltda") tabela2 = (Retorna d, db')
    /\ map Empresa.id (empresas db') = [1; 2]%Z
    /\ nth_error (empresas db') 0 = Some linha_acme.
Proof.
  destruct (atualizar_empresa 2 (so_razao_social "Beta Ltda") tabela2) as [[d|e] db'] eqn:H;
    [|vm_compute in H; discriminate H].
  exists d, db'. split; [reflexivity|].
  destruct (atualizar_so_a_propria 2 (so_razao_social "Beta Ltda") tabela2 db' d H)
    as [M [_ N]].
  split; [rewrite M; reflexivity|]. apply (N 0%nat linha_acme); [reflexivity|discriminate].
Defined.

End Escritas.

(** ** Writing and then reading *)

Section EscritasELeituras.
Import Validacao Spec Router Exemplos Tabelas Uso.

Lemma find_cnpj_gravado (i : Z) (n : string) (f : Empresa.t -> Empresa.t)
      (l : list Empresa.t) (a : Empresa.t) :
  find (com_id i) l = Some a ->
  (forall e, In e l -> Empresa.cnpj e = n -> Empresa.id e = i) ->
  Empresa.cnpj (f a) = n ->
  find (com_cnpj n) (map (fun e => if com_id i e then f e else e) l) = Some (f a).
Proof.
  intros F U C. induction l as [|y l IH]; [discriminate|].
  cbn [find map] in *. cbv beta. destruct (com_id i y) eqn:E.
  - injection F as ->. apply com_cnpj_true in C. rewrite C. reflexivity.
  - replace (com_cnpj n y) with false.
    + apply IH; [exact F|]. intros e He. apply U. right. exact He.
    + symmetry. apply com_cnpj_false. intros Q.
      apply com_id_false in E. apply E. apply U; [left; reflexivity|exact Q].
Qed.

(** X12.  After an update that returns and whose payload supplies a
    non-empty tax ID, the lookup by that tax ID returns the updated
    record; and, in a state the handlers reach, when the company held
    another, non-blank tax ID before, the lookup by the old tax ID
    raises not-found. *)
Theorem atualizar_e_buscar_por_cnpj
        (i : Z) (u : EmpresaUpdate.t) (c : string) (db db' : Db) (antes d : Empresa.t) :
  alcancavel db ->
  existe i antes db ->
  EmpresaUpdate.cnpj u = Some (Some c) -> c <> EmptyString ->
  atualizar_empresa i u db = (Retorna d, db') ->
  buscar_empresa_por_cnpj c db' = Retorna d
  /\ (Empresa.cnpj antes <> EmptyString ->
      Empresa.cnpj antes <> Re.sub_nao_digitos c ->
      buscar_empresa_por_cnpj (Empresa.cnpj antes) db' = Levanta nao_encontrada).
Proof.
  intros R Ex C Hc H. apply atualizar_Retorna in H.
  destruct H as [antes' [nc [Ex' [K [_ [_ [L [-> ->]]]]]]]].
  unfold existe in Ex, Ex'. rewrite Ex in Ex'. injection Ex' as <-.
  rewrite C in K, L. cbn in K, L. injection L as <-.
  assert (V : validar_cnpj c = true).
  { destruct (checa_cnpj_None_valido i c db K) as [Q|Q]; [contradiction|exact Q]. }
  assert (U : forall e, In e (empresas db) ->
                        Empresa.cnpj e = Re.sub_nao_digitos c -> Empresa.id e = i).
  { destruct (checa_cnpj_None i c db K) as [Q|Q]; [|exact Q].
    elim (validar_cnpj_nao_vazio c V Q). }
  split.
  - unfold buscar_empresa_por_cnpj, first, grava. cbn [empresas].
    rewrite (find_cnpj_gravado i _ _ _ antes Ex U); reflexivity.
  - intros Hn Hd. unfold buscar_empresa_por_cnpj.
    destruct (alcancavel_cnpj_so_digitos db R antes (proj1 (first_Some _ _ _ Ex))) as [D _].
    rewrite D.
    destruct (first (com_cnpj (Empresa.cnpj antes)) _) as [x|] eqn:F; [|reflexivity].
    exfalso. apply first_Some in F. destruct F as [Hx Q].
    apply com_cnpj_true in Q. unfold grava in Hx. cbn [empresas] in Hx.
    apply in_map_iff in Hx. destruct Hx as [y [<- Hy]].
    destruct (com_id i y) eqn:E.
    + cbn in Q. congruence.
    + apply com_id_false in E. apply E.
      destruct (first_Some _ _ _ Ex) as [Ha Hi]. apply com_id_true in Hi.
      rewrite <- Hi. symmetry.
      apply (alcancavel_cnpj_unico db R antes y); auto.
Qed.

Lemma atualizar_e_buscar_por_cnpj_witness :
  exists d db',
    atualizar_empresa 2 (so_cnpj "11.222.333/0001-81") tabela2 = (Retorna d, db')
    /\ buscar_empresa_por_cnpj "11.222.333/0001-81" db' = Retorna d
    /\ buscar_empresa_por_cnpj "98765432000110" db' = Levanta nao_encontrada.
Proof.
  destruct (atualizar_empresa 2 (so_cnpj "11.222.333/0001-81") tabela2) as [[d|e] db'] eqn:H;
    [|vm_compute in H; discriminate H].
  exists d, db'. split; [reflexivity|].
  destruct (atualizar_e_buscar_por_cnpj 2 (so_cnpj "11.222.333/0001-81")
              "11.222.333/0001-81" tabela2 db' linha_beta d
              tabela2_alcancavel eq_refl eq_refl) as [A B].
  - discriminate.
  - exact H.
  - split; [exact A|]. apply B; [discriminate|vm_compute; discriminate].
Defined.

(** X13.  An update looks at a non-empty tax ID of its payload only
    through its digits: two payloads that differ only in how the same
    digits are written get the same answer and leave the same table. *)
Theorem atualizar_empresa_formatacao
        (i : Z) (c1 c2 : string) (u : EmpresaUpdate.t) (db : Db) :
  c1 <> EmptyString -> c2 <> EmptyString ->
  Re.sub_nao_digitos c1 = Re.sub_nao_digitos c2 ->
  atualizar_empresa i (com_cnpj_atualizado c1 u) db
  = atualizar_empresa i (com_cnpj_atualizado c2 u) db.
Proof.
  intros N1 N2 H. unfold atualizar_empresa, com_cnpj_atualizado.
  cbn [EmpresaUpdate.cnpj EmpresaUpdate.razao_social EmpresaUpdate.nome_fantasia
       EmpresaUpdate.numero_contato EmpresaUpdate.email_contato EmpresaUpdate.website
       EmpresaUpdate.valor limpa_cnpj].
  assert (K : checa_cnpj i (Some c1) db = checa_cnpj i (Some c2) db).
  { unfold checa_cnpj. destruct c1; [contradiction|]. destruct c2; [contradiction|].
    cbn [verdadeiro]. rewrite (validar_cnpj_mesmos_digitos _ _ H), H. reflexivity. }
  rewrite K, H. reflexivity.
Qed.

Lemma atualizar_empresa_formatacao_witness :
  atualizar_empresa 2 (com_cnpj_atualizado "11.222.333/0001-81" EmpresaUpdate.nenhum) tabela2
  = atualizar_empresa 2 (com_cnpj_atualizado "11222333000181" EmpresaUpdate.nenhum) tabela2.
Proof.
  apply (atualizar_empresa_formatacao 2 "11.222.333/0001-81" "11222333000181");
    [discriminate|discriminate|vm_compute; reflexivity].
Defined.

(** X14.  A delete that returns cannot be repeated: the same delete on
    the table it left raises not-found and changes nothing. *)
Theorem deletar_de_novo (i : Z) (db db' : Db) :
  deletar_empresa i db = (Retorna tt, db') ->
  deletar_empresa i db' = (Levanta nao_encontrada, db').
Proof.
  unfold deletar_empresa at 1.
  destruct (first (com_id i) db); [|discriminate].
  intros H; injection H as <-. unfold deletar_empresa.
  destruct (first (com_id i) {| empresas := _; auto_increment := _ |}) as [y|] eqn:G;
    [|reflexivity].
  apply first_Some in G. cbn [empresas] in G. destruct G as [G1 G2].
  apply filter_In in G1. destruct G1 as [_ G1]. rewrite G2 in G1. discriminate.
Qed.

Lemma deletar_de_novo_witness :
  exists db',
    deletar_empresa 1 tabela2 = (Retorna tt, db')
    /\ deletar_empresa 1 db' = (Levanta nao_encontrada, db').
Proof.
  eexists. split; [vm_compute; reflexivity|].
  apply (deletar_de_novo 1 tabela2). vm_compute. reflexivity.
Defined.

(** X15.  In a state the handlers reach, deleting a company frees its
    non-blank tax ID: the lookup by that tax ID then raises not-found,
    and a create whose payload passes format validation and carries
    that tax ID returns. *)
Theorem deletar_libera_cnpj (i : Z) (db db' : Db) (e : Empresa.t) (p : EmpresaCreate.t) :
  alcancavel db ->
  existe i e db -> Empresa.cnpj e <> EmptyString ->
  deletar_empresa i db = (Retorna tt, db') ->
  ~ falha_formato p ->
  Re.sub_nao_digitos (EmpresaCreate.cnpj p) = Empresa.cnpj e ->
  buscar_empresa_por_cnpj (Empresa.cnpj e) db' = Levanta nao_encontrada
  /\ exists r db'', criar_empresa p db' = (Retorna r, db'')
                    /\ Empresa.cnpj r = Empresa.cnpj e.
Proof.
  intros R Ex Hn H NF Hp. unfold deletar_empresa in H. unfold existe in Ex.
  rewrite Ex in H. injection H as <-.
  destruct (first_Some _ _ _ Ex) as [He Hi]. apply com_id_true in Hi.
  set (db' := {| empresas := _; auto_increment := _ |}).
  assert (L : ~ cnpj_em_uso (Empresa.cnpj e) db').
  { intros [x [Hx Q]]. unfold db' in Hx. cbn [empresas] in Hx.
    apply filter_In in Hx. destruct Hx as [Hx Hd].
    apply negb_true_iff, com_id_false in Hd. apply Hd. rewrite <- Hi.
    apply (alcancavel_cnpj_unico db R x e); auto. congruence. }
  split.
  - unfold buscar_empresa_por_cnpj.
    destruct (alcancavel_cnpj_so_digitos db R e He) as [D _]. rewrite D.
    destruct (first _ db') as [x|] eqn:F; [|reflexivity].
    elim L. apply cnpj_em_uso_first. eauto.
  - rewrite <- Hp in L. rewrite (criar_empresa_novo p db' NF L). cbv zeta.
    eexists _, _. split; [reflexivity|]. exact Hp.
Qed.

Lemma deletar_libera_cnpj_witness :
  exists db',
    deletar_empresa 1 tabela2 = (Retorna tt, db')
    /\ buscar_empresa_por_cnpj "12345678000195" db' = Levanta nao_encontrada
    /\ exists r db'', criar_empresa acme_filial db' = (Retorna r, db'').
Proof.
  destruct (deletar_empresa 1 tabela2) as [[[]|x] db'] eqn:H;
    [|vm_compute in H; discriminate H].
  exists db'. split; [reflexivity|].
  destruct (deletar_libera_cnpj 1 tabela2 db' linha_acme acme_filial
              tabela2_alcancavel eq_refl) as [A [r [db'' [B _]]]].
  - discriminate.
  - exact H.
  - intros F; apply falha_formato_guardas in F; vm_compute in F; discriminate F.
  - vm_compute. reflexivity.
  - split; [exact A|]. exists r, db''. exact B.
Defined.

(** X16.  In a state the handlers reach, deleting the company a create
    has just returned succeeds and leaves the rows the table had before
    the create. *)
Theorem criar_e_deletar (p : EmpresaCreate.t) (db db1 : Db) (r : Empresa.t) :
  alcancavel db ->
  criar_empresa p db = (Retorna r, db1) ->
  exists db2,
    deletar_empresa (Empresa.id r) db1 = (Retorna tt, db2)
    /\ empresas db2 = empresas db.
Proof.
  intros R H. apply criar_Retorna in H. destruct H as [-> [Hi _]].
  destruct (alcancavel_ids_distintos db R) as [_ B].
  assert (N : forall e, In e (empresas db) -> Empresa.id e <> Empresa.id r).
  { intros e He. specialize (B e He). lia. }
  assert (F : first (com_id (Empresa.id r)) db = None).
  { apply first_None. intros e He. apply com_id_false. apply N. exact He. }
  unfold deletar_empresa.
  rewrite (first_app_novo _ db r _ F) by (apply com_id_true; reflexivity).
  eexists. split; [reflexivity|]. cbn [empresas].
  rewrite filter_app, (filter_todos _ _ N). cbn [filter].
  replace (com_id (Empresa.id r) r) with true
    by (symmetry; apply com_id_true; reflexivity).
  apply app_nil_r.
Qed.

Lemma criar_e_deletar_witness :
  exists db2,
    deletar_empresa 2 tabela2 = (Retorna tt, db2)
    /\ empresas db2 = empresas tabela1.
Proof.
  apply (criar_e_deletar beta tabela1 tabela2 linha_beta tabela1_alcancavel tabela2_criada).
Defined.

End EscritasELeituras.

(** ** What every reachable table satisfies *)

Section Invariantes.
Import Validacao Spec Router Exemplos Tabelas Uso.

Lemma reprovado_contato_ok (valida : string -> bool) (v : option string) :
  reprovado valida v = false -> contato_ok valida v.
Proof.
  intros H s ->. cbn in H. destruct s as [|a s]; [left; reflexivity|].
  cbn in H. right. apply negb_false_iff. exact H.
Qed.

Lemma atribui_contato_ok (valida : string -> bool) (f : EmpresaUpdate.campo)
      (atual : option string) :
  reprovado valida (EmpresaUpdate.valor f) = false ->
  contato_ok valida atual ->
  contato_ok valida (atribui f atual).
Proof.
  intros H A. destruct f as [v|]; cbn in *; [|exact A].
  apply reprovado_contato_ok. exact H.
Qed.

(** X17.  In every state the handlers reach, every stored contact email
    and contact phone is absent, empty or passes its validator. *)
Theorem contatos_sempre_validos (db : Db) : alcancavel db -> contatos_validos db.
Proof.
  induction 1 as [|p db R IH|i u db R IH|i db R IH].
  - intros e [].
  - destruct (criar_empresa p db) as [[r|x] db'] eqn:H; cbn [snd].
    2:{ destruct (criar_empresa_casos p db) as [[y Q]|[r [Q _]]]; rewrite Q in H;
        [injection H as _ <-; exact IH|discriminate]. }
    unfold criar_empresa in H.
    destruct (negb _); [discriminate|].
    destruct (reprovado validar_email _) eqn:E; [discriminate|].
    destruct (reprovado validar_telefone _) eqn:T; [discriminate|]. cbv zeta in H.
    destruct (first _ db); [discriminate|]. injection H as <- <-.
    intros e He. cbn [empresas] in He. apply in_app_iff in He.
    destruct He as [He|[<-|[]]]; [apply IH; exact He|]. cbn.
    split; apply reprovado_contato_ok; assumption.
  - destruct (atualizar_empresa i u db) as [[d|x] db'] eqn:H; cbn [snd].
    2:{ apply atualizar_Levanta in H. subst db'. exact IH. }
    apply atualizar_Retorna in H.
    destruct H as [antes [nc [_ [_ [E [T [_ [_ ->]]]]]]]].
    intros e He. unfold grava in He. cbn [empresas] in He.
    apply in_map_iff in He. destruct He as [y [<- Hy]].
    destruct (IH y Hy) as [I1 I2].
    destruct (com_id i y); [|split; assumption]. cbn.
    split; apply atribui_contato_ok; assumption.
  - unfold deletar_empresa. destruct (first (com_id i) db); [|exact IH]. cbn [snd].
    intros e He. cbn [empresas] in He. apply filter_In in He. apply IH. tauto.
Qed.

Lemma contatos_sempre_validos_witness :
  contato_ok validar_email (Empresa.email_contato linha_acme)
  /\ contato_ok validar_telefone (Empresa.numero_contato linha_acme).
Proof.
  apply (contatos_sempre_validos tabela2 tabela2_alcancavel linha_acme).
  left. reflexivity.
Defined.

Lemma sem_branco_alcancavel (db : Db) : alcancavel_sem_branco db -> alcancavel db.
Proof. induction 1; constructor; assumption. Qed.

Lemma sem_branco_valido (db : Db) :
  alcancavel_sem_branco db ->
  forall e, In e (empresas db) -> validar_cnpj (Empresa.cnpj e) = true.
Proof.
  induction 1 as [|p db R IH|i u db R IH B|i db R IH].
  - intros e [].
  - destruct (criar_empresa_casos p db) as [[x ->]|[r [-> [C [V _]]]]]; [exact IH|].
    cbn [snd]. intros e He. cbn [empresas] in He. apply in_app_iff in He.
    destruct He as [He|[<-|[]]]; [apply IH; exact He|].
    rewrite C, validar_cnpj_sub. exact V.
  - destruct (atualizar_empresa i u db) as [[d|x] db'] eqn:H; cbn [snd].
    2:{ apply atualizar_Levanta in H. subst db'. exact IH. }
    apply atualizar_Retorna in H.
    destruct H as [antes [nc [_ [K [_ [_ [L [_ ->]]]]]]]].
    intros e He. unfold grava in He. cbn [empresas] in He.
    apply in_map_iff in He. destruct He as [y [<- Hy]].
    destruct (com_id i y); [|apply IH; exact Hy].
    destruct (EmpresaUpdate.cnpj u) as [[c|]|] eqn:C; cbn in L; try discriminate;
      injection L as <-; cbn [aplica Empresa.cnpj]; [|apply IH; exact Hy].
    cbn in K. rewrite validar_cnpj_sub.
    destruct (checa_cnpj_None_valido i c db K) as [->|V]; [|exact V].
    elim B. reflexivity.
  - unfold deletar_empresa. destruct (first (com_id i) db); [|exact IH]. cbn [snd].
    intros e He. cbn [empresas] in He. apply filter_In in He. apply IH. tauto.
Qed.

Lemma sem_repeticao_de_unico (l : list Empresa.t) :
  NoDup (map Empresa.id l) ->
  (forall a b, In a l -> In b l -> Empresa.cnpj a = Empresa.cnpj b ->
               Empresa.id a = Empresa.id b) ->
  NoDup (map Empresa.cnpj l).
Proof.
  induction l as [|y l IH]; cbn; intros N U; [constructor|].
  inversion N as [|? ? Y1 Y2]; subst. constructor.
  - intros I. apply in_map_iff in I. destruct I as [x [Q Hx]].
    apply Y1. rewrite <- (U x y); auto. apply in_map. exact Hx.
  - apply IH; [exact Y2|]. intros a b Ha Hb. apply U; auto.
Qed.

(** X18.  As long as no update sets the tax ID to the empty string,
    every state the handlers reach holds only tax IDs that pass
    [validar_cnpj], written as their 14 digits, and no two records hold
    the same tax ID. *)
Theorem sem_branco_cnpj_valido_e_unico (db : Db) :
  alcancavel_sem_branco db ->
  cnpj_sem_repeticao db
  /\ (forall e, In e (empresas db) ->
                validar_cnpj (Empresa.cnpj e) = true
                /\ Re.sub_nao_digitos (Empresa.cnpj e) = Empresa.cnpj e
                /\ String.length (Empresa.cnpj e) = 14%nat).
Proof.
  intros B. pose proof (sem_branco_alcancavel db B) as R.
  pose proof (sem_branco_valido db B) as V. split.
  - apply sem_repeticao_de_unico; [apply (alcancavel_ids_distintos db R)|].
    intros a b Ha Hb Q. apply (alcancavel_cnpj_unico db R); auto.
    intros Z0. specialize (V a Ha). rewrite Z0 in V. discriminate.
  - intros e He. destruct (alcancavel_cnpj_so_digitos db R e He) as [D _].
    split; [apply V; exact He|]. split; [exact D|].
    specialize (V e He). apply validar_cnpj_spec in V. rewrite D in V. apply V.
Qed.

Lemma sem_branco_cnpj_valido_e_unico_witness :
  cnpj_sem_repeticao tabela2
  /\ String.length (Empresa.cnpj linha_beta) = 14%nat.
Proof.
  assert (B : alcancavel_sem_branco tabela2).
  { change tabela2 with (snd (Retorna linha_beta, tabela2)).
    rewrite <- tabela2_criada. apply asb_criar.
    change tabela1 with (snd (Retorna linha_acme, tabela1)).
    rewrite <- tabela1_criada. apply asb_criar, asb_vazio. }
  destruct (sem_branco_cnpj_valido_e_unico tabela2 B) as [U V].
  split; [exact U|]. apply (V linha_beta). right; left; reflexivity.
Defined.

End Invariantes.

(** ** Uniqueness of the tax ID across the handlers *)

Section UnicidadeDoCnpj.
Import Validacao Spec Router Exemplos Uso.

Lemma criar_empresa_formato_invalido (p : EmpresaCreate.t) (db : Db) :
  falha_formato p ->
  exists e, criar_empresa p db = (Levanta e, db) /\ classifica e = ValidationError.
Proof.
  intros F. apply falha_formato_guardas in F. unfold criar_empresa.
  destruct (validar_cnpj (EmpresaCreate.cnpj p)); cbn [negb orb] in *; cbv iota.
  - destruct (reprovado validar_email (EmpresaCreate.email_contato p)).
    + exists email_invalido. split; reflexivity.
    + cbn [orb] in F. rewrite F. exists telefone_invalido. split; reflexivity.
  - exists cnpj_invalido. split; reflexivity.
Qed.

Lemma sem_branco_sem_repeticao (db : Db) :
  alcancavel_sem_branco db -> cnpj_sem_repeticao db.
Proof.
  intros B. pose proof (sem_branco_alcancavel db B) as R.
  apply sem_repeticao_de_unico; [apply (alcancavel_ids_distintos db R)|].
  intros a b Ha Hb Q. apply (alcancavel_cnpj_unico db R); auto.
  intros Z0. pose proof (sem_branco_valido db B a Ha) as V.
  rewrite Z0 in V. discriminate.
Qed.

(** C2.  From a table in which no company holds the tax ID [n], two
    creates whose payloads pass format validation and whose tax IDs
    both strip to [n] give one success and one conflict, whichever runs
    first, and the created record is then the only one holding [n],
    stored as digits.  A payload that fails format validation is
    refused with a validation error, whether or not its tax ID is held.
    A create never introduces a repeated tax ID.  In every state the
    handlers reach from the empty table the stored tax IDs are digit
    strings and two records with the same non-empty tax ID are one
    company's; and as long as no update sets the tax ID to the empty
    string, no two records hold the same tax ID. *)
Theorem dois_cadastros_mesmo_cnpj :
  (forall p1 p2 db,
      Re.sub_nao_digitos (EmpresaCreate.cnpj p1)
      = Re.sub_nao_digitos (EmpresaCreate.cnpj p2) ->
      ~ falha_formato p1 -> ~ falha_formato p2 ->
      ~ cnpj_em_uso (Re.sub_nao_digitos (EmpresaCreate.cnpj p1)) db ->
      um_sucesso_e_um_conflito p1 p2 db /\ um_sucesso_e_um_conflito p2 p1 db)
  /\ (forall p db r db',
         criar_empresa p db = (Retorna r, db') ->
         Empresa.cnpj r = Re.sub_nao_digitos (EmpresaCreate.cnpj p)
         /\ Re.sub_nao_digitos (Empresa.cnpj r) = Empresa.cnpj r)
  /\ (forall p db, cnpj_sem_repeticao db -> cnpj_sem_repeticao (snd (criar_empresa p db)))
  /\ (forall db, alcancavel db -> cnpj_unico db /\ cnpj_so_digitos db)
  /\ (forall p db,
         falha_formato p ->
         exists e, criar_empresa p db = (Levanta e, db)
                   /\ classifica e = ValidationError)
  /\ (forall db, alcancavel_sem_branco db -> cnpj_sem_repeticao db).
Proof.
  split; [|split; [|split; [|split; [|split]]]].
  - intros p1 p2 db E F1 F2 N. split.
    + apply sucesso_e_conflito; assumption.
    + apply sucesso_e_conflito; auto. rewrite <- E. exact N.
  - intros p db r db' H.
    destruct (criar_empresa_casos p db) as [[e Q]|[r' [Q [C _]]]];
      rewrite Q in H; [discriminate|].
    injection H as <- _. rewrite C. split; [reflexivity|apply sub_nao_digitos_idem].
  - exact criar_preserva_sem_repeticao.
  - intros db R. split;
      [apply alcancavel_cnpj_unico|apply alcancavel_cnpj_so_digitos]; exact R.
  - exact criar_empresa_formato_invalido.
  - exact sem_branco_sem_repeticao.
Qed.

(** [acme] and [acme_filial] have the same tax ID; with only [beta]
    registered, whichever is created first succeeds and the other is
    refused. *)
Lemma dois_cadastros_mesmo_cnpj_witness :
  um_sucesso_e_um_conflito acme acme_filial (snd (criar_empresa beta db_vazio))
  /\ um_sucesso_e_um_conflito acme_filial acme (snd (criar_empresa beta db_vazio)).
Proof.
  apply (proj1 dois_cadastros_mesmo_cnpj acme acme_filial).
  - reflexivity.
  - intros F; apply falha_formato_guardas in F; vm_compute in F; discriminate F.
  - intros F; apply falha_formato_guardas in F; vm_compute in F; discriminate F.
  - intros U; apply cnpj_em_uso_first in U; destruct U as [e U];
      vm_compute in U; discriminate U.
Defined.

(** [email_ruim] and [beta] carry the same tax ID, held by no company
    of the empty table, and the email of [email_ruim] is malformed: in
    either order one create returns and the other raises a validation
    error, so no conflict is raised.  And [db4], reached by creating
    [acme] and [beta] and setting the tax ID of each to the empty
    string, holds two companies with the same stored tax ID. *)
Lemma dois_cadastros_um_invalido :
  Re.sub_nao_digitos (EmpresaCreate.cnpj email_ruim)
  = Re.sub_nao_digitos (EmpresaCreate.cnpj beta)
  /\ ~ cnpj_em_uso (Re.sub_nao_digitos (EmpresaCreate.cnpj beta)) db_vazio
  /\ criar_empresa email_ruim db_vazio = (Levanta email_invalido, db_vazio)
  /\ (exists r db', criar_empresa beta db_vazio = (Retorna r, db')
                    /\ criar_empresa email_ruim db' = (Levanta email_invalido, db'))
  /\ classifica email_invalido = ValidationError
  /\ ~ um_sucesso_e_um_conflito email_ruim beta db_vazio
  /\ ~ um_sucesso_e_um_conflito beta email_ruim db_vazio
  /\ alcancavel db4
  /\ ~ cnpj_sem_repeticao db4
  /\ (exists a b,
         In a (empresas db4) /\ In b (empresas db4)
         /\ Empresa.id a <> Empresa.id b /\ Empresa.cnpj a = Empresa.cnpj b).
Proof.
  split; [reflexivity|].
  split; [intros [e [[] _]]|].
  split; [reflexivity|].
  split; [eexists _, _; split; reflexivity|].
  split; [reflexivity|].
  split; [intros [r [db1 [e [H _]]]]; discriminate H|].
  split.
  { intros [r [db1 [e [H1 [H2 [C _]]]]]].
    injection H1 as <- <-. injection H2 as <-. discriminate C. }
  split.
  { exact (alc_atualizar 2 (so_cnpj "") db3
             (alc_atualizar 1 (so_cnpj "") db2
                (alc_criar beta db1 (alc_criar acme db_vazio alc_vazio)))). }
  split.
  - intros N. unfold cnpj_sem_repeticao in N. vm_compute in N.
    inversion N as [|? ? H1 H2]. apply H1. left. reflexivity.
  - vm_compute. eexists _, _.
    split; [left; reflexivity|].
    split; [right; left; reflexivity|].
    split; [discriminate|reflexivity].
Qed.

End UnicidadeDoCnpj.

(** ** The email pattern *)

Section Email.
Import Validacao Re Linguagem.

Lemma append_vazio (s : string) : s ++ EmptyString = s.
Proof. induction s as [|c s IH]; cbn; congruence. Qed.

Lemma append_assoc (a b c : string) : (a ++ b) ++ c = a ++ (b ++ c).
Proof. induction a as [|x a IH]; cbn; congruence. Qed.

Lemma length_append (a b : string) :
  String.length (a ++ b) = (String.length a + String.length b)%nat.
Proof. induction a as [|x a IH]; cbn; congruence. Qed.

Lemma append_e_vazio (a b : string) :
  a ++ b = EmptyString -> a = EmptyString /\ b = EmptyString.
Proof. destruct a; cbn; [auto|discriminate]. Qed.

Lemma todos_append (p : ascii -> bool) (a b : string) :
  todos p (a ++ b) = todos p a && todos p b.
Proof.
  induction a as [|x a IH]; cbn; [reflexivity|]. rewrite IH, andb_assoc. reflexivity.
Qed.

Lemma conta_append (c : ascii) (a b : string) :
  conta c (a ++ b) = (conta c a + conta c b)%nat.
Proof. induction a as [|x a IH]; cbn; [reflexivity|]. rewrite IH. lia. Qed.

Lemma conta_fora_da_classe (p : ascii -> bool) (c : ascii) (s : string) :
  p c = false -> todos p s = true -> conta c s = 0%nat.
Proof.
  intros H. induction s as [|x s IH]; cbn; [reflexivity|].
  intros T. apply andb_true_iff in T. destruct T as [T1 T2].
  destruct (Ascii.eqb_spec x c) as [->|_]; [congruence|]. apply IH. exact T2.
Qed.

(** The matcher decides membership. *)

Lemma anulavel_pertence (r : regex) :
  anulavel r = true <-> pertence r EmptyString.
Proof.
  split.
  - induction r; cbn; intros H; try discriminate.
    + constructor.
    + apply andb_true_iff in H. destruct H as [H1 H2].
      change EmptyString with (EmptyString ++ EmptyString). constructor; auto.
    + apply orb_true_iff in H. destruct H as [H|H];
        [apply p_alt_e|apply p_alt_d]; auto.
    + constructor.
  - intros H. remember EmptyString as w eqn:E. revert E.
    induction H; intros E; cbn; try reflexivity; try discriminate.
    + apply append_e_vazio in E. destruct E as [E1 E2].
      rewrite IHpertence1, IHpertence2; auto.
    + rewrite IHpertence; auto.
    + rewrite IHpertence; auto. apply orb_true_r.
Qed.

Lemma deriva_pertence (c : ascii) (r : regex) (s : string) :
  pertence (deriva c r) s <-> pertence r (String c s).
Proof.
  split.
  - revert s. induction r as [| |p|a IHa b IHb|a IHa b IHb|a IHa]; cbn; intros s H.
    + inversion H.
    + inversion H.
    + destruct (p c) eqn:P; inversion H; subst. constructor. exact P.
    + destruct (anulavel a) eqn:N.
      * inversion H as [| | | ? ? ? H1 | ? ? ? H1 | |]; subst.
        -- inversion H1 as [| |? ? s1 s2 A B| | | |]; subst.
           change (String c (s1 ++ s2)) with (String c s1 ++ s2).
           constructor; auto.
        -- change (String c s) with (EmptyString ++ String c s).
           constructor; [apply anulavel_pertence; exact N|auto].
      * inversion H as [| |? ? s1 s2 A B| | | |]; subst.
        change (String c (s1 ++ s2)) with (String c s1 ++ s2).
        constructor; auto.
    + inversion H; subst; [apply p_alt_e|apply p_alt_d]; auto.
    + inversion H as [| |? ? s1 s2 A B| | | |]; subst.
      change (String c (s1 ++ s2)) with (String c s1 ++ s2).
      constructor; auto.
  - intros H. remember (String c s) as w eqn:E. revert c s E.
    induction H as [|p x P|a b s1 t H1 IH1 H2 IH2|a b s1 H1 IH1|a b s1 H1 IH1
                    |a|a s1 t H1 IH1 H2 IH2]; intros c s E; cbn.
    + discriminate.
    + injection E as -> <-. rewrite P. constructor.
    + destruct s1 as [|y s1]; cbn in E.
      * assert (N : anulavel a = true) by (apply anulavel_pertence; exact H1).
        rewrite N. apply p_alt_d. apply IH2. exact E.
      * injection E as -> <-.
        destruct (anulavel a); [apply p_alt_e|]; constructor; auto.
    + apply p_alt_e. auto.
    + apply p_alt_d. auto.
    + discriminate.
    + destruct s1 as [|y s1]; cbn in E.
      * apply (IH2 c s E).
      * injection E as -> <-. constructor; auto.
Qed.

Lemma casa_pertence (r : regex) (s : string) : casa r s = true <-> pertence r s.
Proof.
  revert r. induction s as [|c s IH]; intros r; cbn.
  - apply anulavel_pertence.
  - rewrite IH. apply deriva_pertence.
Qed.

(** The strings of the pieces of the pattern. *)

Lemma pertence_seq (a b : regex) (w : string) :
  pertence (Seq a b) w <-> exists s t, w = s ++ t /\ pertence a s /\ pertence b t.
Proof.
  split.
  - intros H. inversion H; subst. eauto.
  - intros [s [t [-> [A B]]]]. constructor; assumption.
Qed.

Lemma pertence_classe (p : ascii -> bool) (w : string) :
  pertence (Classe p) w <-> exists c, w = String c EmptyString /\ p c = true.
Proof.
  split.
  - intros H. inversion H; subst. eauto.
  - intros [c [-> P]]. constructor. exact P.
Qed.

Lemma pertence_caractere (c : ascii) (w : string) :
  pertence (Classe (Ascii.eqb c)) w <-> w = String c EmptyString.
Proof.
  rewrite pertence_classe. split.
  - intros [x [-> E]]. apply Ascii.eqb_eq in E. congruence.
  - intros ->. exists c. split; [reflexivity|apply Ascii.eqb_refl].
Qed.

Lemma pertence_estrela_classe (p : ascii -> bool) (w : string) :
  pertence (Estrela (Classe p)) w <-> todos p w = true.
Proof.
  split.
  - intros H. remember (Estrela (Classe p)) as r eqn:E. revert E.
    induction H; intros E; try discriminate; [reflexivity|].
    injection E as ->. rewrite todos_append, IHpertence2 by reflexivity.
    apply pertence_classe in H. destruct H as [c [-> P]]. cbn. rewrite P. reflexivity.
  - induction w as [|c w IH]; cbn; intros T; [constructor|].
    apply andb_true_iff in T. destruct T as [T1 T2].
    change (String c w) with (String c EmptyString ++ w).
    constructor; [constructor; exact T1|auto].
Qed.

Lemma pertence_mais_classe (p : ascii -> bool) (w : string) :
  pertence (Mais (Classe p)) w <-> w <> EmptyString /\ todos p w = true.
Proof.
  unfold Mais. rewrite pertence_seq. split.
  - intros [s [t [-> [A B]]]]. apply pertence_classe in A. destruct A as [c [-> P]].
    apply pertence_estrela_classe in B. cbn. rewrite P, B. split; [discriminate|reflexivity].
  - intros [N T]. destruct w as [|c w]; [contradiction|]. cbn in T.
    apply andb_true_iff in T. destruct T as [T1 T2].
    exists (String c EmptyString), w. split; [reflexivity|].
    split; [constructor; exact T1|apply pertence_estrela_classe; exact T2].
Qed.

Lemma pertence_dois_ou_mais (p : ascii -> bool) (w : string) :
  pertence (DoisOuMais (Classe p)) w <-> (2 <= String.length w)%nat /\ todos p w = true.
Proof.
  unfold DoisOuMais. rewrite pertence_seq. split.
  - intros [s [t [-> [A B]]]]. apply pertence_classe in A. destruct A as [c [-> P]].
    apply pertence_seq in B. destruct B as [s' [t' [-> [A' B']]]].
    apply pertence_classe in A'. destruct A' as [c' [-> P']].
    apply pertence_estrela_classe in B'. cbn. rewrite P, P', B'. split; [lia|reflexivity].
  - intros [L T]. destruct w as [|c [|c' w]]; cbn in L; try lia. cbn in T.
    apply andb_true_iff in T. destruct T as [T1 T].
    apply andb_true_iff in T. destruct T as [T2 T3].
    exists (String c EmptyString), (String c' w). split; [reflexivity|].
    split; [constructor; exact T1|]. apply pertence_seq.
    exists (String c' EmptyString), w. split; [reflexivity|].
    split; [constructor; exact T2|apply pertence_estrela_classe; exact T3].
Qed.

Lemma pertence_pattern (w : string) :
  pertence pattern w <-> exists l d t, w = endereco l d t /\ partes l d t.
Proof.
  unfold pattern, endereco, partes. rewrite pertence_seq. split.
  - intros [l [w1 [-> [A B]]]]. apply pertence_mais_classe in A.
    apply pertence_seq in B. destruct B as [a [w2 [-> [B C]]]].
    apply pertence_caractere in B. subst a.
    apply pertence_seq in C. destruct C as [d [w3 [-> [C D]]]].
    apply pertence_mais_classe in C.
    apply pertence_seq in D. destruct D as [b [t [-> [D E]]]].
    apply pertence_caractere in D. subst b.
    apply pertence_dois_ou_mais in E.
    exists l, d, t. split; [reflexivity|tauto].
  - intros [l [d [t [-> [L1 [L2 [D1 [D2 [T1 T2]]]]]]]]].
    exists l, ("@" ++ d ++ "." ++ t). split; [reflexivity|].
    split; [apply pertence_mais_classe; auto|]. apply pertence_seq.
    exists "@", (d ++ "." ++ t). split; [reflexivity|].
    split; [apply pertence_caractere; reflexivity|]. apply pertence_seq.
    exists d, ("." ++ t). split; [reflexivity|].
    split; [apply pertence_mais_classe; auto|]. apply pertence_seq.
    exists ".", t. split; [reflexivity|].
    split; [apply pertence_caractere; reflexivity|].
    apply pertence_dois_ou_mais; auto.
Qed.

(** What [re.match] accepts for a pattern closed by [$]: a string of
    the pattern, or one followed by a newline. *)
Lemma re_match_pertence (p : regex) (s : string) :
  re_match p s = true <->
  exists w, pertence p w /\ (s = w \/ s = w ++ nova_linha).
Proof.
  unfold re_match. rewrite casa_pertence, pertence_seq. split.
  - intros [w [e [-> [A B]]]]. exists w. split; [exact A|].
    unfold fim in B. inversion B as [| | | ? ? ? B1 | ? ? ? B1 | |]; subst.
    + inversion B1; subst. left. apply append_vazio.
    + apply pertence_caractere in B1. subst e. right. reflexivity.
  - intros [w [A [-> | ->]]].
    + exists w, EmptyString. split; [symmetry; apply append_vazio|].
      split; [exact A|]. apply p_alt_e. constructor.
    + exists w, nova_linha. split; [reflexivity|].
      split; [exact A|]. apply p_alt_d. apply pertence_caractere. reflexivity.
Qed.

(** An accepted string is an address, or an address and a newline. *)
Lemma aceito_e_endereco (s : string) :
  validar_email s = true ->
  exists l d t,
    partes l d t /\ (s = endereco l d t \/ s = endereco l d t ++ nova_linha).
Proof.
  unfold validar_email. rewrite re_match_pertence. intros [w [A E]].
  apply pertence_pattern in A. destruct A as [l [d [t [-> P]]]]. eauto.
Qed.

Lemma endereco_aceito (l d t : string) :
  partes l d t ->
  validar_email (endereco l d t) = true
  /\ validar_email (endereco l d t ++ nova_linha) = true.
Proof.
  intros P. unfold validar_email. rewrite !re_match_pertence.
  split; exists (endereco l d t); (split; [apply pertence_pattern; eauto|auto]).
Qed.

Lemma classe_em (p : ascii -> bool) (cs : string) :
  (forall c, p c = existsb (Ascii.eqb c) (list_ascii_of_string cs)) ->
  forall c, p c = true <-> Caracteres.em cs c.
Proof. intros H c. rewrite em_existsb, H. reflexivity. Qed.

(** X19.  [validar_email] accepts exactly the strings
    [local@domain.tld], optionally followed by one newline, where the
    local part is a non-empty string of letters, digits and [._%+-],
    the domain a non-empty string of letters, digits and [.-], and the
    last label at least two letters; the letters are the 52 of the
    ASCII alphabet and the digits the ten decimal ones. *)
Theorem validar_email_forma :
  (forall s,
      validar_email s = true <->
      exists l d t,
        partes l d t
        /\ (s = endereco l d t \/ s = endereco l d t ++ nova_linha))
  /\ (forall c,
         classe_local c = true <->
         Caracteres.em (Caracteres.letras ++ Caracteres.algarismos ++ "._%+-") c)
  /\ (forall c,
         classe_dominio c = true <->
         Caracteres.em (Caracteres.letras ++ Caracteres.algarismos ++ ".-") c)
  /\ (forall c, classe_letra c = true <-> Caracteres.em Caracteres.letras c).
Proof.
  split.
  - intros s. split; [apply aceito_e_endereco|].
    intros [l [d [t [P [-> | ->]]]]]; apply (endereco_aceito l d t P).
  - split; [|split]; apply classe_em; intros c;
      destruct c as [b0 b1 b2 b3 b4 b5 b6 b7];
      destruct b0, b1, b2, b3, b4, b5, b6, b7; vm_compute; reflexivity.
Qed.

Lemma conta_endereco (c : ascii) (l d t : string) :
  partes l d t ->
  classe_local c = false -> classe_dominio c = false -> classe_letra c = false ->
  conta c (endereco l d t)
  = ((if Ascii.eqb "@" c then 1 else 0) + (if Ascii.eqb "." c then 1 else 0))%nat.
Proof.
  intros [_ [L [_ [D [_ T]]]]] C1 C2 C3. unfold endereco.
  rewrite conta_append. cbn [append conta]. rewrite conta_append. cbn [append conta].
  rewrite (conta_fora_da_classe _ c l C1 L), (conta_fora_da_classe _ c d C2 D),
    (conta_fora_da_classe _ c t C3 T). lia.
Qed.

(** X20.  Every string [validar_email] accepts has exactly one [@], no
    space, and at least six characters. *)
Theorem validar_email_aceitos (s : string) :
  validar_email s = true ->
  conta "@" s = 1%nat /\ conta " " s = 0%nat /\ (6 <= String.length s)%nat.
Proof.
  intros H. apply aceito_e_endereco in H.
  destruct H as [l [d [t [P E]]]].
  assert (A : conta "@" (endereco l d t) = 1%nat)
    by (rewrite (conta_endereco "@" l d t P); reflexivity).
  assert (B : conta " " (endereco l d t) = 0%nat)
    by (rewrite (conta_endereco " " l d t P); reflexivity).
  assert (C : (6 <= String.length (endereco l d t))%nat).
  { destruct P as [L [_ [D [_ [T _]]]]]. unfold endereco.
    rewrite length_append. cbn [append String.length].
    rewrite length_append. cbn [append String.length].
    destruct l; [contradiction|]. destruct d; [contradiction|]. cbn. lia. }
  destruct E as [-> | ->]; [auto|].
  rewrite !conta_append, length_append, A, B. cbn. split; [reflexivity|]. split; [reflexivity|lia].
Qed.

Lemma validar_email_aceitos_witness :
  conta "@" "contato@acme.com.br" = 1%nat
  /\ conta " " "contato@acme.com.br" = 0%nat
  /\ (6 <= String.length "contato@acme.com.br")%nat.
Proof. apply (validar_email_aceitos "contato@acme.com.br"). vm_compute. reflexivity. Defined.

(** X21.  The end of the pattern lets one newline through: an accepted
    address without a newline is still accepted when a newline is added
    at its end, and no accepted string has more than one newline. *)
Theorem validar_email_nova_linha (s : string) :
  validar_email s = true ->
  (conta "010" s <= 1)%nat
  /\ (conta "010" s = 0%nat -> validar_email (s ++ nova_linha) = true).
Proof.
  intros H. apply aceito_e_endereco in H.
  destruct H as [l [d [t [P E]]]].
  assert (A : conta "010" (endereco l d t) = 0%nat)
    by (rewrite (conta_endereco "010" l d t P); reflexivity).
  destruct E as [-> | ->].
  - split; [lia|]. intros _. apply (endereco_aceito l d t P).
  - rewrite conta_append, A. cbn. split; [lia|discriminate].
Qed.

Lemma validar_email_nova_linha_witness :
  (conta "010" "a@b.co" <= 1)%nat
  /\ (conta "010" "a@b.co" = 0%nat -> validar_email ("a@b.co" ++ nova_linha) = true).
Proof. apply (validar_email_nova_linha "a@b.co"). vm_compute. reflexivity. Defined.

End Email.

(** ** The order of the listing *)

Section Ordem.
Import Spec Router Exemplos Tabelas Uso.

Lemma crescente_app_novo (l : list Z) (n : Z) :
  crescente l -> (forall a, In a l -> (a < n)%Z) -> crescente (l ++ [n]).
Proof.
  induction l as [|y l IH]; cbn; intros C B.
  - split; [intros b []|exact I].
  - destruct C as [C1 C2]. split.
    + intros b Hb. apply in_app_iff in Hb. destruct Hb as [Hb|[<-|[]]]; auto.
    + apply IH; auto.
Qed.

Lemma crescente_filter (p : Empresa.t -> bool) (l : list Empresa.t) :
  crescente (map Empresa.id l) -> crescente (map Empresa.id (filter p l)).
Proof.
  induction l as [|y l IH]; cbn; [auto|]. intros [C1 C2].
  destruct (p y); cbn; [|auto]. split; [|auto].
  intros b Hb. apply C1. apply in_map_iff in Hb. destruct Hb as [x [<- Hx]].
  apply filter_In in Hx. apply in_map. tauto.
Qed.

Lemma crescente_skipn (n : nat) (l : list Z) : crescente l -> crescente (skipn n l).
Proof.
  revert l. induction n as [|n IH]; intros l C; [exact C|].
  destruct l as [|y l]; [exact C|]. cbn. apply IH. apply C.
Qed.

Lemma crescente_firstn (n : nat) (l : list Z) : crescente l -> crescente (firstn n l).
Proof.
  revert l. induction n as [|n IH]; intros l C; [exact I|].
  destruct l as [|y l]; [exact C|]. cbn. destruct C as [C1 C2]. split; [|auto].
  intros b Hb. apply C1. rewrite <- (firstn_skipn n l). apply in_or_app. left. exact Hb.
Qed.

Lemma alcancavel_crescente (db : Db) :
  alcancavel db -> crescente (map Empresa.id (empresas db)).
Proof.
  intros R. induction R as [|p db R IH|i u db R IH|i db R IH].
  - exact I.
  - destruct (criar_empresa p db) as [[r|x] db'] eqn:H; cbn [snd].
    2:{ destruct (criar_empresa_casos p db) as [[y Q]|[r [Q _]]]; rewrite Q in H;
        [injection H as _ <-; exact IH|discriminate]. }
    apply criar_Retorna in H. destruct H as [-> [Hi _]]. cbn [empresas].
    rewrite map_app. cbn [map]. apply crescente_app_novo; [exact IH|].
    intros a Ha. apply in_map_iff in Ha. destruct Ha as [e [<- He]].
    rewrite Hi. apply (alcancavel_ids_distintos db R). exact He.
  - destruct (atualizar_empresa i u db) as [[d|x] db'] eqn:H; cbn [snd].
    2:{ apply atualizar_Levanta in H. subst db'. exact IH. }
    apply atualizar_Retorna in H.
    destruct H as [antes [nc [_ [_ [_ [_ [_ [_ ->]]]]]]]].
    unfold grava. cbn [empresas]. rewrite map_map.
    rewrite (map_ext _ Empresa.id); [exact IH|].
    intros y. destruct (com_id i y); reflexivity.
  - unfold deletar_empresa. destruct (first (com_id i) db); [|exact IH]. cbn [snd empresas].
    apply crescente_filter. exact IH.
Qed.

(** X22.  In every state the handlers reach, the rows of the table are
    in ascending order of identity, and so is every page the listing
    returns. *)
Theorem listar_empresas_em_ordem (skip limit : Z) (db : Db) (l : list Empresa.t) :
  alcancavel db ->
  listar_empresas skip limit db = Linhas l ->
  crescente (map Empresa.id (empresas db)) /\ crescente (map Empresa.id l).
Proof.
  intros R H. pose proof (alcancavel_crescente db R) as C. split; [exact C|].
  unfold listar_empresas in H. destruct (_ && _)%bool; [|discriminate].
  injection H as <-. rewrite <- firstn_map, <- skipn_map.
  apply crescente_firstn, crescente_skipn. exact C.
Qed.

Lemma listar_empresas_em_ordem_witness :
  crescente (map Empresa.id (empresas tabela2))
  /\ crescente (map Empresa.id [linha_beta]).
Proof.
  apply (listar_empresas_em_ordem 1 5 tabela2 [linha_beta] tabela2_alcancavel).
  vm_compute. reflexivity.
Defined.

End Ordem.
